(** * funlib.persistence.arrays.datasets

    A shallow embedding of [funlib/persistence/arrays/datasets.py]:
    the metadata resolver [_read_voxel_size_offset], the opener [open_ds],
    the provisioner [prepare_ds] and the chunk planner [get_chunk_shape] /
    [get_chunk_size_dim], together with the properties the design document
    states about them.

    Python integers are unbounded, so they are [Z]; [//] and [%] are the
    flooring [Z.div] and [Z.modulo], which agree with Python for every
    non-zero divisor.  Exceptions are values of [exn]; a call that may raise
    returns a [result]. *)

From stdpp Require Import gmap strings list list_numbers fin_maps.
From Stdlib Require Import ZArith Lia Ascii.

Local Open Scope Z_scope.
Set Warnings "-register-all".

(** ** Exceptions *)

(** The [assert] statements of the module, one tag per message. *)
Inductive assertion :=
  | AttrsDifferInLength
      (* "resolution and offset attributes differ in length" *)
  | ZipStoreReadOnly
      (* "Only reading supported for zarr ZipStore" *)
  | RoiShapeNotMultiple
      (* "The provided ROI shape is not a multiple of voxel_size" *)
  | RoiOffsetNotMultiple
      (* "The provided ROI offset is not a multiple of voxel_size" *)
  | WriteSizeNotMultiple (write_size voxel_size : list Z)
      (* f"The provided write size ({write_size}) is not a multiple of
         voxel_size ({voxel_size})" *)
  | CoordinateDims
      (* raised inside the geometry library: elementwise arithmetic on
         vectors of unequal dimension *).

(** The [RuntimeError]s the module raises, with the values that are
    formatted into the message. *)
Inductive runtime_error :=
  | UnknownFileFormat (filename : string)
      (* "Unknown file format for %s" % filename *)
  | HDF5NotSupported
      (* "prepare_ds does not support HDF5 files" *)
  | ExistingNotCompatible (filename ds_name : string)
      (* "Existing dataset is not compatible, please manually delete the
         volume at %s/%s" % (filename, ds_name) *).

Inductive exn :=
  | AssertionError (a : assertion)
  | RuntimeError (r : runtime_error)
  | KeyError (key : string)
  | TypeError
  | AttributeError
  | ValueError
  | ZeroDivisionError
  | FileNotFoundError
  | PathNotFoundError
  | ContainsGroupError
  | RecursionError.

Inductive result (A : Type) :=
  | Ok (a : A)
  | Err (e : exn).
Arguments Ok {A} a.
Arguments Err {A} e.

Global Instance result_ret : MRet result := λ A a, Ok a.
Global Instance result_bind : MBind result := λ A B k m,
  match m with
  | Ok a => k a
  | Err e => Err e
  end.
Global Instance result_fmap : FMap result := λ A B f m,
  match m with
  | Ok a => Ok (f a)
  | Err e => Err e
  end.

(** [assert c, msg] *)
Definition assert_ (c : bool) (a : assertion) : result unit :=
  if c then Ok () else Err (AssertionError a).

(** ** Geometry *)

(** Modelled from the spec: the integer vector type [Coordinate] of the
    geometry library, which is not part of this repository.  It supports
    elementwise arithmetic, divisibility checks and reversal; the operands of
    an elementwise operation must have the same dimension, and division is
    the flooring division that the snapping rule
    [floor((offset + voxel_size/2) / voxel_size) * voxel_size] is written
    with.  A zero divisor raises [ZeroDivisionError]. *)
Definition coord_binop (f : Z → Z → Z) (a b : list Z) : result (list Z) :=
  assert_ (bool_decide (length a = length b)) CoordinateDims;;
  Ok (zip_with f a b).

(** Modelled from the spec: [a + b] on two [Coordinate]s. *)
Definition coord_add : list Z → list Z → result (list Z) := coord_binop Z.add.

(** Modelled from the spec: [a * b] on two [Coordinate]s. *)
Definition coord_mul : list Z → list Z → result (list Z) := coord_binop Z.mul.

(** Modelled from the spec: [a / b] on two [Coordinate]s, the flooring
    division of the snapping rule; no component is computed when one of the
    divisors is zero. *)
Definition coord_div (a b : list Z) : result (list Z) :=
  assert_ (bool_decide (length a = length b)) CoordinateDims;;
  if existsb (Z.eqb 0) b then Err ZeroDivisionError
  else Ok (zip_with Z.div a b).

(** Modelled from the spec: [a / n], the division of every component of a
    [Coordinate] by one number. *)
Definition coord_div_num (a : list Z) (n : Z) : result (list Z) :=
  match a with
  | [] => Ok []
  | _ => if n =? 0 then Err ZeroDivisionError else Ok ((λ x, x / n) <$> a)
  end.

(** Modelled from the spec: the divisibility check of [Coordinate],
    [a.is_multiple_of(b)]: every component of [a] leaves remainder zero
    against the component of [b] it is paired with. *)
Definition is_multiple_of (a b : list Z) : result bool :=
  if existsb (λ p, snd p =? 0) (zip a b) then Err ZeroDivisionError
  else Ok (forallb (λ p, fst p mod snd p =? 0) (zip a b)).

(** Modelled from the spec: the axis-aligned box type [Roi] of the geometry
    library, an offset vector and a shape vector in physical units. *)
Record Roi := mkRoi { roi_offset : list Z; roi_shape : list Z }.

(** Modelled from the spec: [roi.begin], the offset of the box. *)
Definition roi_begin (r : Roi) : list Z := roi_offset r.

Global Instance Roi_eq_dec : EqDecision Roi.
Proof. solve_decision. Defined.

(** ** The chunk planner *)

(** [range(lo, hi)] *)
Definition range (lo hi : Z) : list Z := seqZ lo (hi - lo).

(** The two loop variables of [get_chunk_size_dim]. *)
Record search := Search { best_k : option Z; best_target_diff : Z }.

Definition search_init : search :=
  {| best_k := None; best_target_diff := 0 |}.

(** One iteration of the [for k in range(1, b + 1)] loop. *)
Definition search_step (b target_chunk_size : Z) (s : search) (k : Z) : search :=
  if ((b / k) * k) mod b =? 0 then
    let diff := Z.abs (b / k - target_chunk_size) in
    match best_k s with
    | None => {| best_k := Some k; best_target_diff := diff |}
    | Some _ =>
        if diff <? best_target_diff s
        then {| best_k := Some k; best_target_diff := diff |}
        else s
    end
  else s.

Definition search_loop (b target_chunk_size : Z) (ks : list Z) (s : search) : search :=
  fold_left (search_step b target_chunk_size) ks s.

(** [b // best_k] raises [TypeError] when [best_k] is still [None]. *)
Definition get_chunk_size_dim (b target_chunk_size : Z) : result Z :=
  let s := search_loop b target_chunk_size (range 1 (b + 1)) search_init in
  match best_k s with
  | Some k => Ok (b / k)
  | None => Err TypeError
  end.

(** [Coordinate(get_chunk_size_dim(b, 256) for b in block_shape)] *)
Fixpoint get_chunk_shape (block_shape : list Z) : result (list Z) :=
  match block_shape with
  | [] => Ok []
  | b :: bs =>
      c ← get_chunk_size_dim b 256;
      cs ← get_chunk_shape bs;
      Ok (c :: cs)
  end.

(** ** The metadata resolver *)

(** Attribute values as the resolver reads them: integer vectors, text (the
    ordering tag of a transform) and nested objects. *)
Inductive val :=
  | VVec (v : list Z)
  | VStr (s : string)
  | VDict (d : gmap string val).

(** Modelled from the spec: the constructor [Coordinate(v)] of the geometry
    library.  A sequence of integers is taken as it is.  Text and objects
    are iterated by the library and their characters or keys passed through
    [int()], which raises [ValueError] unless all of them are numerals; the
    embedding keeps the raising branch only. *)
Definition Coordinate (v : val) : result (list Z) :=
  match v with
  | VVec l => Ok l
  | VStr _ | VDict _ => Err ValueError
  end.

(** [d[key]] on an attribute value that should be an object. *)
Definition getitem (d : val) (key : string) : result val :=
  match d with
  | VDict m => match m !! key with
               | Some v => Ok v
               | None => Err (KeyError key)
               end
  | VVec _ | VStr _ => Err TypeError
  end.

(** [ds.attrs["transform"].get("ordering", "C") != order] *)
Definition transform_order_differs (transform : val) (order : string) : result bool :=
  match transform with
  | VDict m => match m !! "ordering" with
               | Some (VStr o) => Ok (negb (String.eqb o order))
               | Some _ => Ok true
               | None => Ok (negb (String.eqb "C" order))
               end
  | VVec _ | VStr _ => Err AttributeError
  end.

(** A vector taken from the transform descriptor, reversed when the
    ordering of the transform is not the native order. *)
Definition read_transform (transform : val) (key order : string) : result (list Z) :=
  differs ← transform_order_differs transform order;
  v ← getitem transform key;
  c ← Coordinate v;
  Ok (if differs : bool then rev c else c).

(** Lines 22-40: the voxel size and the dimension it fixes. *)
Definition read_voxel_size (attrs : gmap string val) (order : string)
    : result (option (list Z)) :=
  match attrs !! "resolution" with
  | Some v => Some <$> Coordinate v
  | None =>
  match attrs !! "scale" with
  | Some v => Some <$> Coordinate v
  | None =>
  match attrs !! "pixelResolution" with
  | Some p => v ← getitem p "dimensions"; Some <$> Coordinate v
  | None =>
  match attrs !! "transform" with
  | Some t => Some <$> read_transform t "scale" order
  | None => Ok None
  end end end end.

(** Lines 42-55: the offset, checked against the dimension when it comes
    from the [offset] attribute. *)
Definition read_offset (attrs : gmap string val) (order : string) (dims : option nat)
    : result (option (list Z) * option nat) :=
  match attrs !! "offset" with
  | Some v =>
      offset ← Coordinate v;
      match dims with
      | Some d =>
          assert_ (bool_decide (d = length offset)) AttrsDifferInLength;;
          Ok (Some offset, dims)
      | None => Ok (Some offset, Some (length offset))
      end
  | None =>
  match attrs !! "transform" with
  | Some t => offset ← read_transform t "translate" order; Ok (Some offset, dims)
  | None => Ok (None, dims)
  end end.

(** The test of line 70: [(offset / voxel_size) * voxel_size != offset]. *)
Definition offset_misaligned (offset voxel_size : list Z) : result bool :=
  q ← coord_div offset voxel_size;
  m ← coord_mul q voxel_size;
  Ok (bool_decide (m ≠ offset)).

(** The rounding of lines 79-81:
    [((offset + voxel_size / 2) / voxel_size) * voxel_size]. *)
Definition snap_offset (offset voxel_size : list Z) : result (list Z) :=
  half ← coord_div_num voxel_size 2;
  shifted ← coord_add offset half;
  q ← coord_div shifted voxel_size;
  coord_mul q voxel_size.

(** Lines 70-82. *)
Definition snap_if_misaligned (offset voxel_size : list Z) : result (list Z) :=
  misaligned ← offset_misaligned offset voxel_size;
  if misaligned : bool then snap_offset offset voxel_size else Ok offset.

Definition _read_voxel_size_offset
    (attrs : gmap string val) (shape : list Z) (order : string)
    : result (list Z * list Z) :=
  voxel_size ← read_voxel_size attrs order;
  let dims := length <$> voxel_size in
  '(offset, dims) ← read_offset attrs order dims;
  let dims := default (length shape) dims in
  let voxel_size := default (replicate dims 1) voxel_size in
  let offset := default (replicate dims 0) offset in
  let offset := if String.eqb order "F" then rev offset else offset in
  let voxel_size := if String.eqb order "F" then rev voxel_size else voxel_size in
  offset ← snap_if_misaligned offset voxel_size;
  Ok (voxel_size, offset).

(** ** Storage *)

(** The [compressor] argument: a name such as ["default"], or a codec
    specification [{"id": ..., "level": ...}]. *)
Inductive compressor :=
  | CompressorName (name : string)
  | CompressorSpec (id : string) (level : Z).

Global Instance compressor_eq_dec : EqDecision compressor.
Proof. solve_decision. Defined.

(** A dataset as the backend presents it: [ds.shape], [ds.chunks]
    ([None] for a contiguous dataset), [ds.dtype], [ds.order], [ds.attrs]. *)
Record backend_dataset := mkDataset {
  ds_shape : list Z;
  ds_chunks : option (list Z);
  ds_dtype : string;
  ds_compressor : option compressor;
  ds_order : string;
  ds_attrs : gmap string val }.

(** A virtual descriptor, the content of a [.json] container. *)
Record descriptor := mkDescriptor {
  spec_container : string;
  spec_offset : list Z;
  spec_size : list Z }.

(** The records the module logs at level INFO and above, with the values
    formatted into each message; the DEBUG traces are left out. *)
Inductive log_record :=
  | ErrorFailedToOpen (filename ds_name : string)
  | ErrorUnknownFormat (ds_name filename : string)
  | WarningWriteRoiDeprecated
  | InfoShapesDiffer (found requested : list Z)
  | InfoRoisDiffer (found requested : Roi)
  | InfoVoxelSizesDiffer (found requested : list Z)
  | InfoChunkShapesDiffer (found requested : option (list Z))
  | InfoDtypesDiffer (found requested : string)
  | InfoCreatingNew
  | InfoReusing.

(** What the module can observe and change: the container paths that exist,
    the datasets stored under (container, dataset name), the other
    directories found below a container (the groups a dataset lies in, or
    any directory that holds no dataset), the descriptor files, and the log
    written so far. *)
Record world := mkWorld {
  containers : gset string;
  datasets : gmap (string * string) backend_dataset;
  directories : gset (string * string);
  descriptors : gmap string descriptor;
  log : list log_record }.

(** Computations that read and change the world and may raise. *)
Definition M (A : Type) : Type := world → result A * world.

Global Instance M_ret : MRet M := λ A a w, (Ok a, w).
Global Instance M_bind : MBind M := λ A B k m w,
  match m w with
  | (Ok a, w') => k a w'
  | (Err e, w') => (Err e, w')
  end.

Definition raise {A} (e : exn) : M A := λ w, (Err e, w).
Definition lift {A} (r : result A) : M A := λ w, (r, w).

(** [logger.info(...)], [logger.warning(...)], [logger.error(...)] *)
Definition logger (r : log_record) : M unit := λ w,
  (Ok (), mkWorld (containers w) (datasets w) (directories w) (descriptors w)
            (log w ++ [r])).

(** [try: m except Exception as e: logger.error(r); raise e] *)
Definition log_failure {A} (m : M A) (r : log_record) : M A := λ w,
  match m w with
  | (Err e, w') => (_ ← logger r; raise e) w'
  | ok => ok
  end.

(** [os.path.isdir(filename)] *)
Definition isdir (filename : string) : M bool := λ w,
  (Ok (bool_decide (filename ∈ containers w)), w).

(** [os.makedirs(filename)] *)
Definition makedirs (filename : string) : M unit := λ w,
  (Ok (), mkWorld ({[filename]} ∪ containers w) (datasets w) (directories w)
            (descriptors w) (log w)).

Definition set_containers (c : gset string) (w : world) : world :=
  mkWorld c (datasets w) (directories w) (descriptors w) (log w).

Definition set_datasets (d : gmap (string * string) backend_dataset) (w : world) : world :=
  mkWorld (containers w) d (directories w) (descriptors w) (log w).

Definition set_directories (d : gset (string * string)) (w : world) : world :=
  mkWorld (containers w) (datasets w) d (descriptors w) (log w).

(** ** Paths below a container *)

(** [s.split("/")] *)
Fixpoint split_slash (s : string) : list string :=
  match s with
  | EmptyString => [EmptyString]
  | String c s' =>
      if Ascii.eqb c "/"%char then EmptyString :: split_slash s'
      else match split_slash s' with
           | x :: xs => String c x :: xs
           | [] => [String c EmptyString]
           end
  end.

(** ["/".join(components)] *)
Fixpoint join_slash (components : list string) : string :=
  match components with
  | [] => ""
  | c :: rest =>
      match rest with
      | [] => c
      | _ => c +:+ "/" +:+ join_slash rest
      end
  end.

(** [os.path.join(a, b)] *)
Definition path_join (a b : string) : string :=
  if String.prefix "/" b then b
  else if String.eqb a "" || String.prefix "/" (String.rev a) then a +:+ b
  else a +:+ "/" +:+ b.

(** The components the file system follows when it resolves a path: an
    empty component (a doubled or trailing slash) and [.] stay in place. *)
Definition path_components (path : string) : list string :=
  filter (λ c, c ≠ "" ∧ c ≠ ".") (split_slash path).

(** Where a path that starts at a container leads: to the directory of the
    container under the components [key] ([[]] is the container itself), or
    out of the container through [..], to the components [below] of one of
    the directories the container lies in. *)
Inductive place :=
  | Inside (key : list string)
  | Above (below : list string).

(** The resolution of a path, one component at a time; [..] steps back to
    the parent, which needs the directory it leaves to exist. *)
Fixpoint walk (exists_at : list string → bool) (at_ : place)
    (components : list string) : option place :=
  match components with
  | [] => Some at_
  | c :: rest =>
      match at_ with
      | Inside key =>
          if String.eqb c ".." then
            match key with
            | [] => walk exists_at (Above []) rest
            | _ =>
                if exists_at key
                then walk exists_at (Inside (removelast key)) rest
                else None
            end
          else walk exists_at (Inside (key ++ [c])) rest
      | Above below =>
          if String.eqb c ".." then walk exists_at (Above (removelast below)) rest
          else walk exists_at (Above (below ++ [c])) rest
      end
  end.

(** What is stored below the containers: the datasets and the other
    directories, each under (container, name). *)
Definition entries (w : world) : list (string * string) :=
  (map_to_list (datasets w)).*1 ++ elements (directories w).

(** The directory of a container under the components [key] exists when an
    entry of the container lies at it or below it. *)
Definition key_exists (filename : string) (w : world) (key : list string) : bool :=
  bool_decide (Exists (λ e, e.1 = filename ∧ key `prefix_of` path_components e.2)
                 (entries w)).

Definition resolve (filename ds_name : string) (w : world) : option place :=
  walk (key_exists filename w) (Inside []) (path_components ds_name).

(** Whether [os.path.join(filename, ds_name)] is a directory: an entry is
    stored under the name as it is given, or the path resolves to the
    container itself (an empty name, [.]), to a dataset or a group of the
    container, or to a directory the container lies in.  A path that leaves
    the container and descends again is looked up among the container
    paths. *)
Definition subpath_isdir (filename ds_name : string) (w : world) : bool :=
  bool_decide (is_Some (datasets w !! (filename, ds_name))) ||
  bool_decide ((filename, ds_name) ∈ directories w) ||
  match resolve filename ds_name w with
  | Some (Inside []) => bool_decide (filename ∈ containers w)
  | Some (Inside key) => key_exists filename w key
  | Some (Above []) => bool_decide (filename ∈ containers w)
  | Some (Above _) => bool_decide (path_join filename ds_name ∈ containers w)
  | None => false
  end.

(** [os.path.isdir(os.path.join(filename, ds_name))] *)
Definition isdir_join (filename ds_name : string) : M bool := λ w,
  (Ok (subpath_isdir filename ds_name w), w).

(** An entry at or below the place a path resolves to. *)
Definition below_place (t : option place) (key : list string) : bool :=
  match t with
  | Some (Inside k) => bool_decide (k `prefix_of` key)
  | Some (Above []) => true
  | _ => false
  end.

(** The entries [shutil.rmtree] takes away: the one stored under the name as
    it is given and those of the container at or below the directory the
    name resolves to. *)
Definition removed (filename ds_name : string) (t : option place)
    (e : string * string) : Prop :=
  e.1 = filename ∧ (e.2 = ds_name ∨ below_place t (path_components e.2) = true).

Global Instance removed_dec filename ds_name t e :
  Decision (removed filename ds_name t e).
Proof. unfold removed. apply _. Defined.

(** The world without the directory tree at [os.path.join(filename,
    ds_name)]; the container goes with it when the path resolves to the
    container or to a directory it lies in. *)
Definition remove_tree (filename ds_name : string) (w : world) : world :=
  let t := resolve filename ds_name w in
  mkWorld
    match t with
    | Some (Inside []) | Some (Above []) => containers w ∖ {[filename]}
    | Some (Above _) => containers w ∖ {[path_join filename ds_name]}
    | _ => containers w
    end
    (filter (λ kv, ¬ removed filename ds_name t kv.1) (datasets w))
    (filter (λ e, ¬ removed filename ds_name t e) (directories w))
    (descriptors w) (log w).

(** [shutil.rmtree(os.path.join(filename, ds_name))] *)
Definition rmtree (filename ds_name : string) : M unit := λ w,
  if subpath_isdir filename ds_name w then (Ok (), remove_tree filename ds_name w)
  else (Err FileNotFoundError, w).

(** Modelled from the spec: the storage engines are opaque backends offering
    open, create, attribute-read and attribute-write operations.  Opening a
    container ([zarr.open(filename, mode=...)], [h5py.File(filename, mode)])
    follows the persistence modes the engines document: [r] and [r+] need an
    existing container, [a] creates it when absent, [w] replaces it by an
    empty one, [w-] refuses an existing one. *)
Definition backend_open (filename mode : string) : M unit := λ w,
  let present := bool_decide (filename ∈ containers w) in
  if String.eqb mode "r" || String.eqb mode "r+" then
    if present then (Ok (), w) else (Err PathNotFoundError, w)
  else if String.eqb mode "a" then
    (Ok (), set_containers ({[filename]} ∪ containers w) w)
  else if String.eqb mode "w" then
    (Ok (), set_containers ({[filename]} ∪ containers w)
              (set_directories (filter (λ e, e.1 ≠ filename) (directories w))
                 (set_datasets (filter (λ kv, kv.1.1 ≠ filename) (datasets w)) w)))
  else if String.eqb mode "w-" then
    if present then (Err ContainsGroupError, w)
    else (Ok (), set_containers ({[filename]} ∪ containers w) w)
  else (Err ValueError, w).

(** Modelled from the spec: [container[ds_name]], the attribute-read side of
    an opaque backend. *)
Definition backend_getitem (filename ds_name : string) : M backend_dataset := λ w,
  match datasets w !! (filename, ds_name) with
  | Some ds => (Ok ds, w)
  | None => (Err (KeyError ds_name), w)
  end.

(** [open(filename, "r")] followed by [json.load]. *)
Definition read_descriptor (filename : string) : M descriptor := λ w,
  match descriptors w !! filename with
  | Some spec => (Ok spec, w)
  | None => (Err FileNotFoundError, w)
  end.

(** ** Handles *)

(** Modelled from the spec: the handle class [Array] of [.array], which is
    built from a backend dataset, a Roi, a voxel size, an optional
    origin-translation base and an optional chunk shape.  The dataset is held
    as the snapshot taken when the handle is built. *)
Record Array := mkArray {
  array_data : backend_dataset;
  array_roi : Roi;
  array_voxel_size : list Z;
  array_data_offset : option (list Z);
  array_chunk_shape : option (list Z) }.

(** Modelled from the spec: the logical shape of a handle, [ds.shape]: the
    Roi shape divided by the voxel size, with the leading channel axes of the
    backend dataset prepended. *)
Definition Array_shape (a : Array) : result (list Z) :=
  spatial ← coord_div (roi_shape (array_roi a)) (array_voxel_size a);
  let n_channel_dims :=
    (length (ds_shape (array_data a)) - length (roi_shape (array_roi a)))%nat in
  Ok (take n_channel_dims (ds_shape (array_data a)) ++ spatial).

(** Modelled from the spec: [ds.dtype], the dtype of the backend dataset. *)
Definition Array_dtype (a : Array) : string := ds_dtype (array_data a).

(** ** Strings and slices *)

(** [s.endswith(suffix)] *)
Definition endswith (s suffix : string) : bool :=
  bool_decide (String.list_ascii_of_string suffix `suffix_of`
                 String.list_ascii_of_string s).

(** [s.lstrip("/")] *)
Fixpoint lstrip_slash (s : string) : string :=
  match s with
  | String c s' => if Ascii.eqb c "/"%char then lstrip_slash s' else s
  | EmptyString => s
  end.

(** [l[-n:]]; note that [l[-0:]] is all of [l]. *)
Definition last_n (n : nat) (l : list Z) : list Z :=
  match n with
  | O => l
  | S _ => drop (length l - n) l
  end.

(** ** The opener *)

(** [zarr.open(filename, mode=mode)[ds_name]] and
    [h5py.File(filename, mode=mode)[ds_name]]. *)
Definition open_dataset (filename ds_name mode : string) : M backend_dataset :=
  backend_open filename mode;;
  backend_getitem filename ds_name.

(** The lines shared by the three concrete backends of [open_ds]: resolve the
    metadata, take the trailing axes of the raw shape, build the handle. *)
Definition assemble (ds : backend_dataset) (order : string) : result Array :=
  '(voxel_size, offset) ←
    _read_voxel_size_offset (ds_attrs ds) (ds_shape ds) order;
  let shape := last_n (length voxel_size) (ds_shape ds) in
  extent ← coord_mul voxel_size shape;
  Ok (mkArray ds (mkRoi offset extent) voxel_size None (ds_chunks ds)).

(** [open_ds(filename, ds_name, mode)].  The recursion through [.json]
    descriptors is bounded by [fuel], the depth of the interpreter stack. *)
Fixpoint open_ds (fuel : nat) (filename ds_name mode : string) : M Array :=
  match fuel with
  | O => raise RecursionError
  | S fuel =>
    if endswith filename ".zarr" || endswith filename ".zip" then
      lift (assert_ (negb (endswith filename ".zip") || String.eqb mode "r")
              ZipStoreReadOnly);;
      ds ← log_failure (open_dataset filename ds_name mode)
              (ErrorFailedToOpen filename ds_name);
      lift (assemble ds (ds_order ds))
    else if endswith filename ".n5" then
      ds ← open_dataset filename ds_name mode;
      lift (assemble ds "F")
    else if endswith filename ".h5" || endswith filename ".hdf" then
      ds ← open_dataset filename ds_name mode;
      lift (assemble ds "C")
    else if endswith filename ".json" then
      spec ← read_descriptor filename;
      array ← open_ds fuel (spec_container spec) ds_name mode;
      mret (mkArray (array_data array)
              (mkRoi (spec_offset spec) (spec_size spec))
              (array_voxel_size array)
              (Some (roi_begin (array_roi array)))
              (array_chunk_shape array))
    else
      logger (ErrorUnknownFormat ds_name filename);;
      raise (RuntimeError (UnknownFileFormat filename))
  end.

(** ** The provisioner *)

(** The arguments of [prepare_ds]. *)
Record kwargs := mkArgs {
  kw_filename : string;
  kw_ds_name : string;
  kw_total_roi : Roi;
  kw_voxel_size : list Z;
  kw_dtype : string;
  kw_write_roi : option Roi;
  kw_write_size : option (list Z);
  kw_num_channels : option Z;
  kw_compressor : option compressor;
  kw_delete : bool;
  kw_force_exact_write_size : bool }.

(** The sentinel ["default"] stands for gzip at level 5. *)
Definition resolve_compressor (c : option compressor) : option compressor :=
  if decide (c = Some (CompressorName "default"))
  then Some (CompressorSpec "gzip" 5)
  else c.

(** Lines 266-273. *)
Definition file_format (filename : string) : result string :=
  if endswith filename ".h5" || endswith filename ".hdf" then
    Err (RuntimeError HDF5NotSupported)
  else if endswith filename ".zarr" then Ok "zarr"
  else if endswith filename ".n5" then Ok "n5"
  else Err (RuntimeError (UnknownFileFormat filename)).

(** Lines 275-281: the chunk shape in voxel units. *)
Definition plan_chunk_shape (write_size : option (list Z)) (voxel_size : list Z)
    (force_exact_write_size : bool) : result (option (list Z)) :=
  match write_size with
  | Some ws =>
      block_shape ← coord_div ws voxel_size;
      if negb force_exact_write_size
      then Some <$> get_chunk_shape block_shape
      else Ok (Some block_shape)
  | None => Ok None
  end.

(** Lines 243-259: the alignment assertions; the result is the write size in
    force, which falls back on the shape of the deprecated [write_roi]. *)
Definition check_alignment (kw : kwargs) : M (option (list Z)) :=
  let total_roi := kw_total_roi kw in
  let voxel_size := kw_voxel_size kw in
  ok ← lift (is_multiple_of (roi_shape total_roi) voxel_size);
  lift (assert_ ok RoiShapeNotMultiple);;
  ok ← lift (is_multiple_of (roi_begin total_roi) voxel_size);
  lift (assert_ ok RoiOffsetNotMultiple);;
  write_size ← match kw_write_roi kw with
               | Some write_roi =>
                   logger WarningWriteRoiDeprecated;;
                   mret (match kw_write_size kw with
                         | None => Some (roi_shape write_roi)
                         | Some ws => Some ws
                         end)
               | None => mret (kw_write_size kw)
               end;
  match write_size with
  | Some ws =>
      ok ← lift (is_multiple_of ws voxel_size);
      lift (assert_ ok (WriteSizeNotMultiple ws voxel_size))
  | None => mret ()
  end;;
  mret write_size.

(** What lines 266-290 compute before the file system is touched. *)
Record geometry := mkGeometry {
  g_format : string;
  g_shape : list Z;
  g_chunk_shape : option (list Z);
  g_voxel_size_with_channels : option (list Z) }.

(** Lines 266-290: the format, the logical shape and the chunk shape, with
    the channel axis prepended when a channel count is given. *)
Definition plan_geometry (kw : kwargs) (write_size : option (list Z)) : result geometry :=
  let voxel_size := kw_voxel_size kw in
  format ← file_format (kw_filename kw);
  chunk_shape ← plan_chunk_shape write_size voxel_size
                  (kw_force_exact_write_size kw);
  shape ← coord_div (roi_shape (kw_total_roi kw)) voxel_size;
  Ok (match kw_num_channels kw with
      | Some n =>
          mkGeometry format (n :: shape) (cons n <$> chunk_shape)
            (Some (1 :: voxel_size))
      | None => mkGeometry format shape chunk_shape None
      end).

(** Lines 292-296. *)
Definition ensure_container (filename : string) : M unit :=
  present ← isdir filename;
  if present : bool then mret ()
  else makedirs filename;; backend_open filename "w".

(** One check of the comparison of lines 335-353. *)
Definition differ (differs : bool) (r : log_record) (compatible : bool) : M bool :=
  if differs then logger r;; mret false else mret compatible.

(** What this module does not decide about the storage engine: the chunking
    it chooses when none is requested, and the codec specifications its
    registry knows. *)
Record backend := mkBackend {
  guess_chunks : list Z → list Z;
  codec_available : compressor → bool }.

Section Backend.

Variable B : backend.

(** Modelled from the spec: [zarr.get_codec(compressor)]; codecs are opaque
    to this module and looked up in the registry of the backend. *)
Definition get_codec (c : compressor) : result compressor :=
  if codec_available B c then Ok c else Err ValueError.

(** The groups a dataset name lies in: its leading paths. *)
Definition parent_groups (ds_name : string) : list string :=
  let components := path_components ds_name in
  (λ n, join_slash (take n components)) <$> seq 1 (length components - 1).

(** Modelled from the spec: the create operation of an opaque backend,
    [root.create_dataset(ds_name, shape=..., chunks=..., dtype=...,
    compressor=...)].  The new dataset is row-major and has no attributes;
    a name already in use is refused; the groups the name lies in are
    created with it. *)
Definition create_dataset (filename ds_name : string) (shape : list Z)
    (chunks : option (list Z)) (dtype : string) (c : option compressor) : M unit := λ w,
  match datasets w !! (filename, ds_name) with
  | Some _ => (Err ContainsGroupError, w)
  | None =>
      let ds := mkDataset shape (Some (default (guess_chunks B shape) chunks))
                  dtype c "C" ∅ in
      (Ok (), set_directories
                (list_to_set (pair filename <$> parent_groups ds_name) ∪
                 directories w)
                (set_datasets (<[(filename, ds_name) := ds]> (datasets w)) w))
  end.

(** Modelled from the spec: the attribute-write operation of an opaque
    backend, [ds.attrs[key] = v]. *)
Definition setattr (filename ds_name key : string) (v : val) : M unit := λ w,
  (Ok (), set_datasets
            (alter (λ ds, mkDataset (ds_shape ds) (ds_chunks ds) (ds_dtype ds)
                            (ds_compressor ds) (ds_order ds)
                            (<[key := v]> (ds_attrs ds)))
               (filename, ds_name) (datasets w)) w).

(** Lines 298-327: the dataset subpath is absent. *)
Definition create_new (filename ds_name format : string) (total_roi : Roi)
    (voxel_size shape : list Z) (chunk_shape : option (list Z)) (dtype : string)
    (c : option compressor) (voxel_size_with_channels : option (list Z)) : M Array :=
  c ← lift (match c with
            | Some spec => Some <$> get_codec spec
            | None => Ok None
            end);
  backend_open filename "a";;
  create_dataset filename ds_name shape chunk_shape dtype c;;
  (if String.eqb format "zarr" then
     setattr filename ds_name "resolution" (VVec voxel_size);;
     setattr filename ds_name "offset" (VVec (roi_begin total_roi))
   else
     setattr filename ds_name "resolution" (VVec (rev voxel_size));;
     setattr filename ds_name "offset" (VVec (rev (roi_begin total_roi))));;
  chunk_shape ← lift (match chunk_shape with
                      | Some cs =>
                          Some <$> coord_div cs
                                     (default voxel_size voxel_size_with_channels)
                      | None => Ok None
                      end);
  ds ← backend_getitem filename ds_name;
  mret (mkArray ds total_roi voxel_size None chunk_shape).

(** Lines 333-353: the comparison of the existing dataset with the request. *)
Definition compatible_with (ds : Array) (shape : list Z) (total_roi : Roi)
    (voxel_size : list Z) (write_size chunk_shape : option (list Z))
    (dtype : string) : M bool :=
  found ← lift (Array_shape ds);
  compatible ← differ (bool_decide (found ≠ shape))
                 (InfoShapesDiffer found shape) true;
  compatible ← differ (bool_decide (array_roi ds ≠ total_roi))
                 (InfoRoisDiffer (array_roi ds) total_roi) compatible;
  compatible ← differ (bool_decide (array_voxel_size ds ≠ voxel_size))
                 (InfoVoxelSizesDiffer (array_voxel_size ds) voxel_size) compatible;
  compatible ← differ (bool_decide (is_Some write_size) &&
                       bool_decide (ds_chunks (array_data ds) ≠ chunk_shape))
                 (InfoChunkShapesDiffer (ds_chunks (array_data ds)) chunk_shape)
                 compatible;
  differ (bool_decide (dtype ≠ Array_dtype ds))
    (InfoDtypesDiffer (Array_dtype ds) dtype) compatible.

(** [prepare_ds(filename, ds_name, total_roi, voxel_size, dtype, ...)].
    [fuel] bounds the depth of the recursive call of line 365. *)
Fixpoint prepare_ds (fuel : nat) (kw : kwargs) : M Array :=
  match fuel with
  | O => raise RecursionError
  | S fuel =>
    let filename := kw_filename kw in
    let total_roi := kw_total_roi kw in
    let voxel_size := kw_voxel_size kw in
    let dtype := kw_dtype kw in
    write_size ← check_alignment kw;
    let c := resolve_compressor (kw_compressor kw) in
    let ds_name := lstrip_slash (kw_ds_name kw) in
    g ← lift (plan_geometry kw write_size);
    ensure_container filename;;
    present ← isdir_join filename ds_name;
    if negb present then
      create_new filename ds_name (g_format g) total_roi voxel_size (g_shape g)
        (g_chunk_shape g) dtype c (g_voxel_size_with_channels g)
    else
      (* the container is a .zarr or .n5 path here: the opener does not
         descend into a descriptor *)
      ds ← open_ds 1 filename ds_name "a";
      compatible ← compatible_with ds (g_shape g) total_roi voxel_size
                     write_size (g_chunk_shape g) dtype;
      if negb compatible then
        if negb (kw_delete kw) then
          raise (RuntimeError (ExistingNotCompatible filename ds_name))
        else
          logger InfoCreatingNew;;
          rmtree filename ds_name;;
          prepare_ds fuel
            (mkArgs filename ds_name total_roi voxel_size dtype None write_size
               (kw_num_channels kw) c false false)
      else
        logger InfoReusing;;
        mret ds
  end.

End Backend.

(** * Vocabulary of the properties *)

(** What the loop has established after scanning [1 .. n]. *)
Definition best_upto (b t n : Z) (s : search) : Prop :=
  ∃ k, best_k s = Some k ∧ best_target_diff s = Z.abs (b / k - t) ∧
       1 ≤ k ≤ n ∧ (k | b) ∧
       (∀ k', 1 ≤ k' ≤ n → (k' | b) → Z.abs (b / k - t) ≤ Z.abs (b / k' - t)) ∧
       (∀ k', 1 ≤ k' < k → (k' | b) → Z.abs (b / k - t) < Z.abs (b / k' - t)).

(** One axis of the rounding formula. *)
Definition snap1 (o v : Z) : Z := (o + v / 2) / v * v.

(** An offset is aligned when every component is a multiple of the voxel
    size of its axis. *)
Definition aligned (offset voxel_size : list Z) : Prop :=
  Forall2 (λ o v, (v | o)) offset voxel_size.

(** Both vectors of a resolved pair, reversed. *)
Definition reverse_both (p : list Z * list Z) : list Z * list Z :=
  (rev p.1, rev p.2).

(** The resolver reads one of its vectors from the transform descriptor:
    the voxel size when no direct attribute gives it, the offset when the
    [offset] attribute is absent. *)
Definition consults_transform (attrs : gmap string val) : bool :=
  bool_decide (is_Some (attrs !! "transform")) &&
  (bool_decide (attrs !! "offset" = None) ||
   (bool_decide (attrs !! "resolution" = None) &&
    bool_decide (attrs !! "scale" = None) &&
    bool_decide (attrs !! "pixelResolution" = None))).

(** The offset vector as its source supplies it, before it is compared with
    the dimension of the voxel size. *)
Definition offset_source (attrs : gmap string val) (order : string)
    : result (option (list Z)) :=
  fst <$> read_offset attrs order None.

(** The two assertions that report vectors of unequal dimension. *)
Definition dimensionality_mismatch (e : exn) : Prop :=
  e = AssertionError AttrsDifferInLength ∨ e = AssertionError CoordinateDims.

(** The write size in force: [write_size], or the shape of the deprecated
    [write_roi] when only that is given. *)
Definition effective_write_size (kw : kwargs) : option (list Z) :=
  match kw_write_roi kw, kw_write_size kw with
  | Some write_roi, None => Some (roi_shape write_roi)
  | _, ws => ws
  end.

(** The assertions that report a misaligned request. *)
Definition alignment_assertion (a : assertion) : Prop :=
  a = RoiShapeNotMultiple ∨ a = RoiOffsetNotMultiple ∨
  ∃ write_size voxel_size, a = WriteSizeNotMultiple write_size voxel_size.

(** Two worlds with the same containers, datasets, directories and
    descriptor files; the log is not part of the stored state. *)
Definition same_storage (w w' : world) : Prop :=
  containers w' = containers w ∧ datasets w' = datasets w ∧
  directories w' = directories w ∧ descriptors w' = descriptors w.

(** [(n,) + l] when a channel count is given. *)
Definition prepend_channels (num_channels : option Z) (l : list Z) : list Z :=
  match num_channels with
  | Some n => n :: l
  | None => l
  end.

(** A component of a dataset name that the file system and the backend read
    alike: not empty, not [.] or [..], and without a backslash, which the
    backend takes for a slash. *)
Definition proper_component (c : string) : bool :=
  negb (String.eqb c "") && negb (String.eqb c ".") &&
  negb (String.eqb c "..") &&
  forallb (λ a, negb (Ascii.eqb a "\"%char)) (String.list_ascii_of_string c).

(** A dataset name made of proper components separated by single slashes:
    the name of a path strictly below the container, stored as it is
    given. *)
Definition proper_name (ds_name : string) : bool :=
  forallb proper_component (split_slash ds_name).

(** No dataset and no directory of the container lies at the components
    [key] or below them. *)
Definition no_entry_below (filename : string) (key : list string) (w : world) : Prop :=
  ∀ e, is_Some (datasets w !! e) ∨ e ∈ directories w →
       e.1 = filename → ¬ key `prefix_of` path_components e.2.

(** A request the provisioner can serve: a positive voxel size of dimension
    at least one, a total Roi and a write size aligned to it, a positive
    write size, a [.zarr] or [.n5] container, a codec the backend knows and
    a proper dataset name once the leading slashes are stripped. *)
Record request_ok (B : backend) (kw : kwargs) : Prop := mkRequestOk {
  ok_voxel_size : Forall (λ v, 0 < v) (kw_voxel_size kw);
  ok_dimension : kw_voxel_size kw ≠ [];
  ok_shape : aligned (roi_shape (kw_total_roi kw)) (kw_voxel_size kw);
  ok_offset : aligned (roi_begin (kw_total_roi kw)) (kw_voxel_size kw);
  ok_format : endswith (kw_filename kw) ".zarr" = true ∨
              endswith (kw_filename kw) ".n5" = true;
  ok_write_size : ∀ ws, effective_write_size kw = Some ws →
                    aligned ws (kw_voxel_size kw) ∧ Forall (λ x, 0 < x) ws;
  ok_codec : ∀ c, resolve_compressor (kw_compressor kw) = Some c →
               codec_available B c = true;
  ok_name : proper_name (lstrip_slash (kw_ds_name kw)) = true }.

(** The records [check_alignment] logs. *)
Definition deprecation_log (kw : kwargs) : list log_record :=
  match kw_write_roi kw with
  | Some _ => [WarningWriteRoiDeprecated]
  | None => []
  end.

(** What [plan_geometry] yields for a well-formed request. *)
Definition geometry_ok (kw : kwargs) (g : geometry) : Prop :=
  ((g_format g = "zarr" ∧ endswith (kw_filename kw) ".zarr" = true) ∨
   (g_format g = "n5" ∧ endswith (kw_filename kw) ".n5" = true)) ∧
  g_shape g =
    prepend_channels (kw_num_channels kw)
      (zip_with Z.div (roi_shape (kw_total_roi kw)) (kw_voxel_size kw)) ∧
  g_voxel_size_with_channels g =
    (λ _, 1 :: kw_voxel_size kw) <$> kw_num_channels kw ∧
  match effective_write_size kw with
  | Some ws =>
      ∃ cs, g_chunk_shape g = Some (prepend_channels (kw_num_channels kw) cs) ∧
            length cs = length (kw_voxel_size kw) ∧ Forall (λ c, 1 ≤ c) cs ∧
            plan_chunk_shape (Some ws) (kw_voxel_size kw)
              (kw_force_exact_write_size kw) = Ok (Some cs)
  | None => g_chunk_shape g = None
  end.

(** The two attributes written at creation, reversed for an N5 container. *)
Definition stored_attrs (format : string) (voxel_size offset : list Z)
    : gmap string val :=
  if String.eqb format "zarr"
  then <["offset" := VVec offset]> (<["resolution" := VVec voxel_size]> ∅)
  else <["offset" := VVec (rev offset)]>
         (<["resolution" := VVec (rev voxel_size)]> ∅).

(** The dataset [create_new] leaves in the store. *)
Definition fresh_dataset (B : backend) (kw : kwargs) (g : geometry) : backend_dataset :=
  mkDataset (g_shape g)
    (Some (default (guess_chunks B (g_shape g)) (g_chunk_shape g)))
    (kw_dtype kw) (resolve_compressor (kw_compressor kw)) "C"
    (stored_attrs (g_format g) (kw_voxel_size kw) (roi_begin (kw_total_roi kw))).

(** The native order [open_ds] resolves the metadata with: column-major for
    an N5 container, the order of the dataset itself otherwise. *)
Definition native_order (filename : string) (ds : backend_dataset) : string :=
  if endswith filename ".n5" then "F" else ds_order ds.

(** A world with more records in its log. *)
Definition log_add (rs : list log_record) (w : world) : world :=
  mkWorld (containers w) (datasets w) (directories w) (descriptors w)
    (log w ++ rs).

Definition record_if (b : bool) (r : log_record) : list log_record :=
  if b then [r] else [].

(** The checks an opened dataset fails against a request, in the order they
    are made, each as the record it is logged with. *)
Definition mismatches (ds : Array) (found shape : list Z) (total_roi : Roi)
    (voxel_size : list Z) (write_size chunk_shape : option (list Z))
    (dtype : string) : list log_record :=
  record_if (bool_decide (found ≠ shape)) (InfoShapesDiffer found shape) ++
  record_if (bool_decide (array_roi ds ≠ total_roi))
    (InfoRoisDiffer (array_roi ds) total_roi) ++
  record_if (bool_decide (array_voxel_size ds ≠ voxel_size))
    (InfoVoxelSizesDiffer (array_voxel_size ds) voxel_size) ++
  record_if (bool_decide (is_Some write_size) &&
             bool_decide (ds_chunks (array_data ds) ≠ chunk_shape))
    (InfoChunkShapesDiffer (ds_chunks (array_data ds)) chunk_shape) ++
  record_if (bool_decide (dtype ≠ Array_dtype ds))
    (InfoDtypesDiffer (Array_dtype ds) dtype).

(** A request used to exercise the statements below: a [16 x 32] Roi at
    offset [(0, 8)] with voxel size [(2, 4)], three channels and a write size
    of [(8, 16)]. *)
Definition example_backend : backend := mkBackend (λ shape, shape) (λ _, true).

Definition example_request (filename dtype : string) : kwargs :=
  mkArgs filename "/volumes/raw" (mkRoi [0; 8] [16; 32]) [2; 4] dtype None
    (Some [8; 16]) (Some 3) (Some (CompressorName "default")) false false.

Definition empty_world : world := mkWorld ∅ ∅ ∅ ∅ [].

(** A world in which [data.n5] holds the dataset of the example request. *)
Definition provisioned_world : world :=
  (prepare_ds example_backend 1 (example_request "data.n5" "float32")
     empty_world).2.

(** The geometry planned for the example request and the handle its
    dataset opens as. *)
Definition example_geometry : geometry :=
  mkGeometry "n5" [3; 8; 8] (Some [3; 4; 4]) (Some [1; 2; 4]).

Definition provisioned_handle : Array :=
  let ds := fresh_dataset example_backend (example_request "data.n5" "float32")
              example_geometry in
  mkArray ds (mkRoi [0; 8] [16; 32]) [2; 4] None (ds_chunks ds).

(** The example request with another total Roi. *)
Definition resized_request : kwargs :=
  mkArgs "data.n5" "/volumes/raw" (mkRoi [0; 8] [32; 32]) [2; 4] "float32" None
    (Some [8; 16]) (Some 3) (Some (CompressorName "default")) false false.

(** The handle [open_ds] derives from a virtual descriptor and the handle
    of its container. *)
Definition derived_handle (spec : descriptor) (parent : Array) : Array :=
  mkArray (array_data parent) (mkRoi (spec_offset spec) (spec_size spec))
    (array_voxel_size parent) (Some (roi_begin (array_roi parent)))
    (array_chunk_shape parent).

(** The arguments of the call [prepare_ds] makes on itself after it has
    deleted an incompatible dataset (lines 365-374). *)
Definition retry_request (kw : kwargs) : kwargs :=
  mkArgs (kw_filename kw) (lstrip_slash (kw_ds_name kw)) (kw_total_roi kw)
    (kw_voxel_size kw) (kw_dtype kw) None (effective_write_size kw)
    (kw_num_channels kw) (resolve_compressor (kw_compressor kw)) false false.

(** A request whose write size has a zero component and is to be taken as
    it is: an [16 x 32] Roi with voxel size [(1, 4)] and write size
    [(8, 0)]. *)
Definition zero_write_size_request : kwargs :=
  mkArgs "data.zarr" "raw" (mkRoi [0; 8] [16; 32]) [1; 4] "uint8" None
    (Some [8; 0]) None (Some (CompressorName "default")) false true.

(** A request with another dataset name. *)
Definition with_ds_name (kw : kwargs) (ds_name : string) : kwargs :=
  mkArgs (kw_filename kw) ds_name (kw_total_roi kw) (kw_voxel_size kw)
    (kw_dtype kw) (kw_write_roi kw) (kw_write_size kw) (kw_num_channels kw)
    (kw_compressor kw) (kw_delete kw) (kw_force_exact_write_size kw).

(** The resized request with permission to delete. *)
Definition resized_delete_request : kwargs :=
  mkArgs "data.n5" "/volumes/raw" (mkRoi [0; 8] [32; 32]) [2; 4] "float32" None
    (Some [8; 16]) (Some 3) (Some (CompressorName "default")) true true.

(** * Properties *)

(** ** The chunk planner *)

(** For [1 <= k <= b] the test [((b // k) * k) % b == 0] holds exactly when
    [k] divides [b]. *)
Lemma valid_iff_divides b k :
  1 ≤ k ≤ b → (((b / k) * k) mod b =? 0) = true ↔ (k | b).
Proof.
  intros Hk. rewrite Z.eqb_eq. split.
  - intros Hm.
    assert (Hle : b / k * k ≤ b) by (rewrite Z.mul_comm; apply Z.mul_div_le; lia).
    assert (Hpos : 1 ≤ b / k) by (apply Z.div_le_lower_bound; lia).
    assert (Hb : b / k * k = b).
    { apply Z.mod_divide in Hm; [|lia]. destruct Hm as [q Hq].
      assert (0 < q) by nia. assert (q ≤ 1) by nia. nia. }
    exists (b / k). lia.
  - intros [q Hq]. subst b. rewrite Z.div_mul by lia. apply Z.mod_same. nia.
Qed.

Lemma search_step_first b t :
  1 ≤ b → best_upto b t 1 (search_step b t search_init 1).
Proof.
  intros Hb. unfold search_step.
  assert (Hv : ((b / 1 * 1) mod b =? 0) = true).
  { apply valid_iff_divides; [lia|]. apply Z.divide_1_l. }
  rewrite Hv. cbn. exists 1. repeat split; try lia.
  - apply Z.divide_1_l.
  - intros k' Hk' _. assert (k' = 1) as -> by lia. lia.
Qed.

Lemma search_step_next b t n s :
  1 ≤ n → n + 1 ≤ b → best_upto b t n s →
  best_upto b t (n + 1) (search_step b t s (n + 1)).
Proof.
  intros Hn Hb (k & Hk & Hd & Hr & Hdiv & Hmin & Hfirst). unfold search_step.
  destruct ((b / (n + 1) * (n + 1)) mod b =? 0) eqn:Hv.
  - apply valid_iff_divides in Hv; [|lia]. rewrite Hk.
    destruct (Z.abs (b / (n + 1) - t) <? best_target_diff s) eqn:Hlt.
    + apply Z.ltb_lt in Hlt. rewrite Hd in Hlt.
      exists (n + 1). cbn. repeat split; try lia; try done.
      * intros k' Hk' Hdk'. destruct (decide (k' = n + 1)) as [->|]; [lia|].
        specialize (Hmin k' ltac:(lia) Hdk'). lia.
      * intros k' Hk' Hdk'. specialize (Hmin k' ltac:(lia) Hdk'). lia.
    + apply Z.ltb_ge in Hlt. rewrite Hd in Hlt.
      exists k. repeat split; try lia; try done.
      intros k' Hk' Hdk'. destruct (decide (k' = n + 1)) as [->|]; [lia|].
      apply Hmin; [lia|done].
  - exists k. repeat split; try lia; try done.
    intros k' Hk' Hdk'. destruct (decide (k' = n + 1)) as [->|].
    + apply valid_iff_divides in Hdk'; [congruence|lia].
    + apply Hmin; [lia|done].
Qed.

Lemma search_loop_best b t (n : nat) :
  Z.of_nat (S n) ≤ b →
  best_upto b t (Z.of_nat (S n))
    (search_loop b t (seqZ 1 (Z.of_nat (S n))) search_init).
Proof.
  induction n as [|n IH]; intros Hb.
  - cbn. apply search_step_first. lia.
  - rewrite seqZ_S. unfold search_loop. rewrite fold_left_app. cbn.
    replace (1 + Z.of_nat (S n)) with (Z.of_nat (S n) + 1) by lia.
    replace (Z.of_nat (S (S n))) with (Z.of_nat (S n) + 1) by lia.
    apply search_step_next; [lia|lia|]. apply IH. lia.
Qed.

Lemma get_chunk_size_dim_best b t :
  1 ≤ b →
  best_upto b t b (search_loop b t (range 1 (b + 1)) search_init).
Proof.
  intros Hb. unfold range.
  pose proof (search_loop_best b t (Z.to_nat (b - 1))) as H.
  replace (Z.of_nat (S (Z.to_nat (b - 1)))) with b in H by lia.
  replace (b + 1 - 1) with b by lia. apply H. lia.
Qed.

(** C3: for every block length [b >= 1] and the default target chunk length
    256, [get_chunk_size_dim] returns a chunk length that evenly divides
    [b]. *)
Theorem get_chunk_size_dim_divides b :
  1 ≤ b → ∃ c, get_chunk_size_dim b 256 = Ok c ∧ (c | b).
Proof.
  intros Hb. unfold get_chunk_size_dim.
  destruct (get_chunk_size_dim_best b 256 Hb) as (k & -> & _ & Hk & [q Hq] & _).
  exists (b / k). split; [done|].
  exists k. subst b. rewrite Z.div_mul by lia. lia.
Qed.

Lemma get_chunk_size_dim_divides_witness :
  ∃ c, get_chunk_size_dim 12 256 = Ok c ∧ (c | 12).
Proof. apply (get_chunk_size_dim_divides 12). lia. Defined.

(** C4: for every block length [b >= 1] and target [t],
    [get_chunk_size_dim] returns [b / k] for the chunk count [k] among the
    exact divisors of [b] that minimizes [|b / k - t|], the smallest such
    count when several are equally close; for [b = 100] and [t = 256] it
    returns 100, and for [b = 1024] and [t = 256] it returns 256. *)
Theorem get_chunk_size_dim_closest b t :
  1 ≤ b →
  (∃ k, get_chunk_size_dim b t = Ok (b / k) ∧
        1 ≤ k ≤ b ∧ (k | b) ∧
        (∀ k', 1 ≤ k' ≤ b → (k' | b) → Z.abs (b / k - t) ≤ Z.abs (b / k' - t)) ∧
        (∀ k', 1 ≤ k' ≤ b → (k' | b) →
               Z.abs (b / k' - t) = Z.abs (b / k - t) → k ≤ k' ∧ b / k' ≤ b / k)) ∧
  get_chunk_size_dim 100 256 = Ok 100 ∧
  get_chunk_size_dim 1024 256 = Ok 256.
Proof.
  intros Hb. split; [|split; by vm_compute].
  unfold get_chunk_size_dim.
  destruct (get_chunk_size_dim_best b t Hb) as (k & -> & _ & Hk & Hdiv & Hmin & Hfirst).
  exists k. split; [done|]. split; [lia|]. split; [done|]. split; [done|].
  intros k' Hk' Hdk' Heq.
  assert (k ≤ k') as Hle.
  { destruct (decide (k ≤ k')) as [|Hlt]; [done|].
    specialize (Hfirst k' ltac:(lia) Hdk'). lia. }
  split; [done|]. apply Z.div_le_compat_l; lia.
Qed.

Lemma get_chunk_size_dim_closest_witness :
  (∃ k, get_chunk_size_dim 6 4 = Ok (6 / k) ∧
        1 ≤ k ≤ 6 ∧ (k | 6) ∧
        (∀ k', 1 ≤ k' ≤ 6 → (k' | 6) → Z.abs (6 / k - 4) ≤ Z.abs (6 / k' - 4)) ∧
        (∀ k', 1 ≤ k' ≤ 6 → (k' | 6) →
               Z.abs (6 / k' - 4) = Z.abs (6 / k - 4) → k ≤ k' ∧ 6 / k' ≤ 6 / k)) ∧
  get_chunk_size_dim 100 256 = Ok 100 ∧
  get_chunk_size_dim 1024 256 = Ok 256.
Proof. apply (get_chunk_size_dim_closest 6 4). lia. Defined.

(** C9: for every block length [b >= 1], [get_chunk_size_dim] is total: the
    chunk count 1 passes the validity test, so [best_k] is set when the loop
    ends and the final division is defined, and the chunk length returned
    lies between 1 and [b]. *)
Theorem get_chunk_size_dim_total b t :
  1 ≤ b →
  (((b / 1) * 1) mod b =? 0) = true ∧
  is_Some (best_k (search_loop b t (range 1 (b + 1)) search_init)) ∧
  ∃ c, get_chunk_size_dim b t = Ok c ∧ 1 ≤ c ≤ b.
Proof.
  intros Hb. split; [|split].
  - apply valid_iff_divides; [lia|]. apply Z.divide_1_l.
  - destruct (get_chunk_size_dim_best b t Hb) as (k & Hk & _). by rewrite Hk.
  - unfold get_chunk_size_dim.
    destruct (get_chunk_size_dim_best b t Hb) as (k & -> & _ & Hk & _).
    exists (b / k). split; [done|]. split.
    + apply Z.div_le_lower_bound; lia.
    + apply Z.div_le_upper_bound; nia.
Qed.

Lemma get_chunk_size_dim_total_witness :
  (((7 / 1) * 1) mod 7 =? 0) = true ∧
  is_Some (best_k (search_loop 7 3 (range 1 (7 + 1)) search_init)) ∧
  ∃ c, get_chunk_size_dim 7 3 = Ok c ∧ 1 ≤ c ≤ 7.
Proof. apply (get_chunk_size_dim_total 7 3). lia. Defined.

(** ** Coordinate arithmetic *)

Lemma existsb_zero_false (b : list Z) :
  Forall (λ v, v ≠ 0) b → existsb (Z.eqb 0) b = false.
Proof.
  intros H. induction H as [|v b Hv _ IH]; cbn; [reflexivity|].
  rewrite IH. by destruct v.
Qed.

Lemma coord_binop_ok f (a b : list Z) :
  length a = length b → coord_binop f a b = Ok (zip_with f a b).
Proof. intros H. unfold coord_binop. by rewrite bool_decide_eq_true_2. Qed.

Lemma coord_binop_dims f (a b : list Z) :
  length a ≠ length b → coord_binop f a b = Err (AssertionError CoordinateDims).
Proof. intros H. unfold coord_binop. by rewrite bool_decide_eq_false_2. Qed.

Lemma coord_div_ok (a b : list Z) :
  length a = length b → Forall (λ v, v ≠ 0) b →
  coord_div a b = Ok (zip_with Z.div a b).
Proof.
  intros H Hb. unfold coord_div.
  rewrite bool_decide_eq_true_2 by done. cbn. by rewrite existsb_zero_false.
Qed.

Lemma coord_div_dims (a b : list Z) :
  length a ≠ length b → coord_div a b = Err (AssertionError CoordinateDims).
Proof. intros H. unfold coord_div. by rewrite bool_decide_eq_false_2. Qed.

Lemma coord_div_num_two (a : list Z) :
  coord_div_num a 2 = Ok ((λ x, x / 2) <$> a).
Proof. by destruct a. Qed.

Lemma Forall_pos_nonzero (b : list Z) :
  Forall (λ v, 0 < v) b → Forall (λ v, v ≠ 0) b.
Proof. intros H. eapply Forall_impl; [exact H|]. cbn. lia. Qed.

(** ** Offset snapping *)

Lemma snap1_aligned o v : 0 < v → (v | o) → snap1 o v = o.
Proof.
  intros Hv [m ->]. unfold snap1.
  rewrite (Z.add_comm (m * v)), Z.div_add by lia.
  rewrite Z.div_small; [lia|].
  split; [apply Z.div_pos; lia|apply Z.div_lt; lia].
Qed.

Lemma snap1_divides o v : (v | snap1 o v).
Proof. unfold snap1. by exists ((o + v / 2) / v). Qed.

Lemma snap1_idempotent o v : 0 < v → snap1 (snap1 o v) v = snap1 o v.
Proof. intros Hv. apply snap1_aligned; [done|apply snap1_divides]. Qed.

Lemma snap_offset_pointwise (offset voxel_size : list Z) :
  length offset = length voxel_size → Forall (λ v, 0 < v) voxel_size →
  snap_offset offset voxel_size = Ok (zip_with snap1 offset voxel_size).
Proof.
  intros Hlen Hpos. unfold snap_offset. rewrite coord_div_num_two. cbn.
  unfold coord_add. rewrite coord_binop_ok by (by rewrite length_fmap). cbn.
  rewrite coord_div_ok; [|rewrite length_zip_with, length_fmap; lia
                         |by apply Forall_pos_nonzero]. cbn.
  unfold coord_mul. rewrite coord_binop_ok
    by (rewrite !length_zip_with, length_fmap; lia).
  f_equal. clear Hpos. revert voxel_size Hlen.
  induction offset as [|o offset IH]; intros [|v vs] Hlen; try done.
  cbn. f_equal. apply IH. by injection Hlen.
Qed.

Lemma zip_with_div_mul (a b : list Z) :
  zip_with Z.mul (zip_with Z.div a b) b = zip_with (λ o v, o / v * v) a b.
Proof.
  revert b. induction a as [|o a IH]; intros [|v b]; try done.
  cbn. f_equal. apply IH.
Qed.

Lemma offset_misaligned_pointwise (offset voxel_size : list Z) :
  length offset = length voxel_size → Forall (λ v, 0 < v) voxel_size →
  offset_misaligned offset voxel_size =
    Ok (bool_decide (zip_with (λ o v, o / v * v) offset voxel_size ≠ offset)).
Proof.
  intros Hlen Hpos. unfold offset_misaligned.
  rewrite coord_div_ok by (by try apply Forall_pos_nonzero). cbn.
  unfold coord_mul. rewrite coord_binop_ok by (rewrite length_zip_with; lia).
  cbn. by rewrite zip_with_div_mul.
Qed.

Lemma zip_with_snap1_aligned (offset voxel_size : list Z) :
  Forall (λ v, 0 < v) voxel_size → aligned offset voxel_size →
  zip_with snap1 offset voxel_size = offset.
Proof.
  intros Hpos Hal. induction Hal as [|o v os vs Hd _ IH]; [done|].
  inversion Hpos; subst. cbn. rewrite snap1_aligned by done. f_equal. by apply IH.
Qed.

Lemma zip_with_snap1_is_aligned (offset voxel_size : list Z) :
  length offset = length voxel_size →
  aligned (zip_with snap1 offset voxel_size) voxel_size.
Proof.
  revert voxel_size. induction offset as [|o os IH]; intros [|v vs] Hlen; try done.
  - constructor.
  - cbn. constructor; [apply snap1_divides|]. apply IH. by injection Hlen.
Qed.

Lemma aligned_not_misaligned (offset voxel_size : list Z) :
  Forall (λ v, 0 < v) voxel_size → aligned offset voxel_size →
  offset_misaligned offset voxel_size = Ok false.
Proof.
  intros Hpos Hal.
  rewrite offset_misaligned_pointwise by (done || by eapply Forall2_length).
  f_equal. apply bool_decide_eq_false_2. intros Hne. apply Hne. clear Hne.
  induction Hal as [|o v os vs [m ->] _ IH]; [done|].
  inversion Hpos; subst. cbn. rewrite Z.div_mul by lia. f_equal. by apply IH.
Qed.

(** C5: the snapping rule is idempotent.  For every integer offset and
    positive voxel size of the same dimension, the rounding formula leaves an
    offset that is a multiple of the voxel size unchanged, and applying it
    twice gives what applying it once gives; the same holds for the guarded
    rule of the resolver, which rounds only a misaligned offset. *)
Theorem snap_offset_idempotent (offset voxel_size : list Z) :
  length offset = length voxel_size →
  Forall (λ v, 0 < v) voxel_size →
  (aligned offset voxel_size →
     snap_offset offset voxel_size = Ok offset ∧
     snap_if_misaligned offset voxel_size = Ok offset) ∧
  (∃ s, snap_offset offset voxel_size = Ok s ∧
        snap_offset s voxel_size = Ok s) ∧
  (∃ s, snap_if_misaligned offset voxel_size = Ok s ∧
        snap_if_misaligned s voxel_size = Ok s).
Proof.
  intros Hlen Hpos.
  assert (Hfix : ∀ o, aligned o voxel_size →
            snap_offset o voxel_size = Ok o ∧
            snap_if_misaligned o voxel_size = Ok o).
  { intros o Hal. split.
    - rewrite snap_offset_pointwise by (done || by eapply Forall2_length).
      f_equal. by apply zip_with_snap1_aligned.
    - unfold snap_if_misaligned. by rewrite aligned_not_misaligned. }
  pose proof (zip_with_snap1_is_aligned offset voxel_size Hlen) as Hsn.
  split; [exact (Hfix offset)|]. split.
  - exists (zip_with snap1 offset voxel_size).
    split; [by apply snap_offset_pointwise|]. by apply Hfix.
  - unfold snap_if_misaligned at 1.
    rewrite offset_misaligned_pointwise by done. cbn.
    case_bool_decide as Hmis.
    + exists (zip_with snap1 offset voxel_size).
      split; [by apply snap_offset_pointwise|]. by apply Hfix.
    + exists offset. split; [done|].
      unfold snap_if_misaligned. rewrite offset_misaligned_pointwise by done.
      by rewrite bool_decide_eq_false_2 by (intros Hne; by apply Hne).
Qed.

Lemma snap_offset_idempotent_witness :
  (aligned [7; -8] [4; 4] →
     snap_offset [7; -8] [4; 4] = Ok [7; -8] ∧
     snap_if_misaligned [7; -8] [4; 4] = Ok [7; -8]) ∧
  (∃ s, snap_offset [7; -8] [4; 4] = Ok s ∧ snap_offset s [4; 4] = Ok s) ∧
  (∃ s, snap_if_misaligned [7; -8] [4; 4] = Ok s ∧
        snap_if_misaligned s [4; 4] = Ok s).
Proof.
  apply (snap_offset_idempotent [7; -8] [4; 4]); [reflexivity|].
  repeat constructor.
Defined.

(** ** The metadata resolver *)

Lemma zip_with_rev {A B C} (f : A → B → C) (a : list A) (b : list B) :
  length a = length b → zip_with f (rev a) (rev b) = rev (zip_with f a b).
Proof.
  revert b. induction a as [|x a IH]; intros [|y b] Hlen; try done.
  cbn. injection Hlen as Hlen.
  rewrite zip_with_app by (by rewrite !length_rev). by rewrite IH.
Qed.

Lemma existsb_rev {A} (p : A → bool) (l : list A) :
  existsb p (rev l) = existsb p l.
Proof.
  induction l as [|x l IH]; [done|]. cbn.
  rewrite existsb_app, IH. cbn. by destruct (p x), (existsb p l).
Qed.

Lemma coord_binop_rev f (a b : list Z) :
  coord_binop f (rev a) (rev b) = @rev Z <$> coord_binop f a b.
Proof.
  destruct (decide (length a = length b)) as [Hlen|Hlen].
  - rewrite !coord_binop_ok by (by rewrite ?length_rev). cbn.
    by rewrite zip_with_rev.
  - by rewrite !coord_binop_dims by (by rewrite ?length_rev).
Qed.

Lemma coord_div_rev (a b : list Z) :
  coord_div (rev a) (rev b) = @rev Z <$> coord_div a b.
Proof.
  unfold coord_div. rewrite !length_rev, existsb_rev.
  case_bool_decide as Hlen; [|done]. cbn.
  destruct (existsb (Z.eqb 0) b); [done|]. cbn. by rewrite zip_with_rev.
Qed.

Lemma fmap_rev {A B} (f : A → B) (l : list A) : f <$> rev l = rev (f <$> l).
Proof.
  induction l as [|x l IH]; [done|]. cbn. by rewrite fmap_app, IH.
Qed.

Lemma coord_div_num_rev (a : list Z) n :
  coord_div_num (rev a) n = @rev Z <$> coord_div_num a n.
Proof.
  unfold coord_div_num. destruct a as [|x a]; [done|].
  destruct (rev (x :: a)) as [|z l] eqn:Hr.
  { apply (f_equal length) in Hr. rewrite length_rev in Hr. done. }
  destruct (n =? 0); [done|].
  rewrite <- Hr. cbn [fmap result_fmap]. f_equal. apply fmap_rev.
Qed.

Lemma rev_inj_neq (a b : list Z) : rev a ≠ rev b ↔ a ≠ b.
Proof.
  split; intros H Heq; apply H; [by rewrite Heq|].
  by rewrite <- (rev_involutive a), <- (rev_involutive b), Heq.
Qed.

Lemma offset_misaligned_rev (offset voxel_size : list Z) :
  offset_misaligned (rev offset) (rev voxel_size) =
  offset_misaligned offset voxel_size.
Proof.
  unfold offset_misaligned. rewrite coord_div_rev.
  destruct (coord_div offset voxel_size) as [q|e]; [|done]. cbn.
  unfold coord_mul. rewrite coord_binop_rev.
  destruct (coord_binop Z.mul q voxel_size) as [m|e]; [|done]. cbn.
  f_equal. apply bool_decide_ext, rev_inj_neq.
Qed.

Lemma snap_offset_rev (offset voxel_size : list Z) :
  snap_offset (rev offset) (rev voxel_size) =
  @rev Z <$> snap_offset offset voxel_size.
Proof.
  unfold snap_offset. rewrite coord_div_num_rev.
  destruct (coord_div_num voxel_size 2) as [half|e]; [|done]. cbn.
  unfold coord_add. rewrite coord_binop_rev.
  destruct (coord_binop Z.add offset half) as [shifted|e]; [|done]. cbn.
  rewrite coord_div_rev.
  destruct (coord_div shifted voxel_size) as [q|e]; [|done]. cbn.
  unfold coord_mul. apply coord_binop_rev.
Qed.

Lemma snap_if_misaligned_rev (offset voxel_size : list Z) :
  snap_if_misaligned (rev offset) (rev voxel_size) =
  @rev Z <$> snap_if_misaligned offset voxel_size.
Proof.
  unfold snap_if_misaligned. rewrite offset_misaligned_rev.
  destruct (offset_misaligned offset voxel_size) as [[|]|e]; try done.
  apply snap_offset_rev.
Qed.

(** Without the transform descriptor the native order plays no part in what
    the sources supply. *)
Lemma read_voxel_size_direct attrs o1 o2 :
  (attrs !! "transform" = None ∨
   ¬ (attrs !! "resolution" = None ∧ attrs !! "scale" = None ∧
      attrs !! "pixelResolution" = None)) →
  read_voxel_size attrs o1 = read_voxel_size attrs o2.
Proof.
  intros H. unfold read_voxel_size.
  destruct (attrs !! "resolution"); [done|].
  destruct (attrs !! "scale"); [done|].
  destruct (attrs !! "pixelResolution"); [done|].
  destruct H as [->|H]; [done|]. by destruct H.
Qed.

Lemma read_offset_direct attrs o1 o2 dims :
  (attrs !! "transform" = None ∨ attrs !! "offset" ≠ None) →
  read_offset attrs o1 dims = read_offset attrs o2 dims.
Proof.
  intros H. unfold read_offset.
  destruct (attrs !! "offset"); [done|].
  destruct H as [->|H]; [done|]. by destruct H.
Qed.

Lemma consults_transform_false attrs :
  consults_transform attrs = false →
  (attrs !! "transform" = None ∨
   ¬ (attrs !! "resolution" = None ∧ attrs !! "scale" = None ∧
      attrs !! "pixelResolution" = None)) ∧
  (attrs !! "transform" = None ∨ attrs !! "offset" ≠ None).
Proof.
  unfold consults_transform. intros H.
  apply andb_false_iff in H as [H|H].
  - apply bool_decide_eq_false in H.
    assert (attrs !! "transform" = None) as Hn.
    { destruct (attrs !! "transform"); [|done]. destruct H. by eexists. }
    by split; left.
  - apply orb_false_iff in H as [Ho H].
    apply bool_decide_eq_false in Ho. split; [|by right]. right.
    intros (Hr & Hs & Hp).
    rewrite !bool_decide_eq_true_2 in H by done. done.
Qed.

(** C1 (as amended): for every attribute set whose voxel size and offset are
    resolved without the transform descriptor (voxel size from [resolution],
    [scale] or [pixelResolution.dimensions], offset from [offset], either one
    possibly defaulted), resolving with native order column-major yields
    exactly the elementwise reverse of the voxel size and offset resolved
    with native order row-major; a failure under one order is the same
    failure under the other. *)
Theorem column_major_reverses_direct attrs shape :
  consults_transform attrs = false →
  _read_voxel_size_offset attrs shape "F" =
  reverse_both <$> _read_voxel_size_offset attrs shape "C".
Proof.
  intros H. apply consults_transform_false in H as [Hv Ho].
  unfold _read_voxel_size_offset.
  rewrite (read_voxel_size_direct attrs "F" "C" Hv).
  destruct (read_voxel_size attrs "C") as [voxel_size|e]; [|done]. cbn.
  rewrite (read_offset_direct attrs "F" "C" _ Ho).
  destruct (read_offset attrs "C" (length <$> voxel_size)) as [[offset dims]|e];
    [|done].
  cbn. rewrite snap_if_misaligned_rev.
  by destruct (snap_if_misaligned _ _).
Qed.

Lemma column_major_reverses_direct_witness :
  _read_voxel_size_offset
    {[ "resolution" := VVec [4; 2]; "offset" := VVec [3; 8] ]} [8; 8] "F" =
  reverse_both <$>
    _read_voxel_size_offset
      {[ "resolution" := VVec [4; 2]; "offset" := VVec [3; 8] ]} [8; 8] "C".
Proof. apply column_major_reverses_direct. reflexivity. Defined.

(** C1 fails as stated: vectors given through [transform.scale] and
    [transform.translate] resolve to the same pair under both native orders,
    which is not the reverse of itself. *)
Lemma column_major_transform_counterexample :
  let attrs : gmap string val :=
    {[ "transform" :=
         VDict {[ "scale" := VVec [1; 2]; "translate" := VVec [0; 0] ]} ]} in
  _read_voxel_size_offset attrs [8; 8] "C" = Ok ([1; 2], [0; 0]) ∧
  _read_voxel_size_offset attrs [8; 8] "F" = Ok ([1; 2], [0; 0]) ∧
  _read_voxel_size_offset attrs [8; 8] "F" ≠
    reverse_both <$> _read_voxel_size_offset attrs [8; 8] "C".
Proof. cbv zeta. split; [|split]; [by vm_compute..|]. vm_compute. congruence. Qed.

(** Vectors of a transform descriptor whose ordering tag is absent, ["C"] or
    ["F"] keep the order the transform declares, whatever the native order
    of the backend. *)
Lemma read_transform_native_order (m : gmap string val) key :
  (m !! "ordering" = None ∨ m !! "ordering" = Some (VStr "C") ∨
   m !! "ordering" = Some (VStr "F")) →
  @rev Z <$> read_transform (VDict m) key "F" = read_transform (VDict m) key "C".
Proof.
  intros H. unfold read_transform, transform_order_differs.
  destruct H as [->|[->| ->]]; cbn;
    destruct (m !! key) as [v|]; try done; cbn;
    destruct (Coordinate v) as [c|e]; try done; cbn;
    by rewrite ?rev_involutive.
Qed.

(** C6: whenever the source of the voxel size and the source of the offset
    supply vectors of different lengths, the resolver fails with an
    assertion about unequal dimensions and returns no pair. *)
Theorem mismatched_dimensions_rejected attrs shape order voxel_size offset :
  read_voxel_size attrs order = Ok (Some voxel_size) →
  offset_source attrs order = Ok (Some offset) →
  length voxel_size ≠ length offset →
  ∃ e, _read_voxel_size_offset attrs shape order = Err e ∧
       dimensionality_mismatch e.
Proof.
  intros Hv Ho Hlen. unfold _read_voxel_size_offset. rewrite Hv. cbn.
  unfold offset_source, read_offset in *.
  destruct (attrs !! "offset") as [v|].
  - destruct (Coordinate v) as [off|e]; [|done]. cbn in *.
    injection Ho as ->.
    rewrite bool_decide_eq_false_2 by done. cbn.
    eexists. split; [done|]. by left.
  - destruct (attrs !! "transform") as [t|]; [|done].
    destruct (read_transform t "translate" order) as [off|e]; [|done].
    cbn in *. injection Ho as ->.
    unfold snap_if_misaligned, offset_misaligned.
    rewrite coord_div_dims.
    + eexists. split; [done|]. by right.
    + destruct (String.eqb order "F"); rewrite ?length_rev; congruence.
Qed.

Lemma mismatched_dimensions_rejected_witness :
  ∃ e, _read_voxel_size_offset
         {[ "resolution" := VVec [4; 4; 4];
            "transform" := VDict {[ "translate" := VVec [0; 0] ]} ]}
         [8; 8; 8] "C" = Err e ∧
       dimensionality_mismatch e.
Proof.
  apply (mismatched_dimensions_rejected _ _ _ [4; 4; 4] [0; 0]);
    [reflexivity|reflexivity|].
  cbn. lia.
Defined.

(** ** The provisioner *)

Lemma is_multiple_of_spec (a b : list Z) :
  Forall (λ v, v ≠ 0) b →
  ∃ r, is_multiple_of a b = Ok r ∧
       (length a = length b → r = true ↔ aligned a b).
Proof.
  intros Hb. unfold is_multiple_of.
  assert (existsb (λ p : Z * Z, p.2 =? 0) (zip a b) = false) as ->.
  { revert a. induction Hb as [|v b Hv _ IH]; intros [|x a]; try done.
    cbn. rewrite IH. by destruct v. }
  eexists. split; [done|]. revert b Hb.
  induction a as [|x a IH]; intros [|v b] Hb Hlen; try done.
  - split; [constructor|done].
  - injection Hlen as Hlen. inversion Hb as [|? ? Hv Hb']; subst.
    cbn. rewrite andb_true_iff, (IH b Hb' Hlen), Z.eqb_eq.
    split.
    + intros [Hm Hal]. constructor; [|done]. by apply Z.mod_divide.
    + intros Hal. inversion Hal; subst. split; [|done].
      by apply Z.mod_divide.
Qed.

Lemma is_multiple_of_aligned (a b : list Z) :
  Forall (λ v, 0 < v) b → aligned a b → is_multiple_of a b = Ok true.
Proof.
  intros Hb Hal.
  destruct (is_multiple_of_spec a b (Forall_pos_nonzero _ Hb)) as (r & -> & Hr).
  f_equal. apply Hr; [by eapply Forall2_length|done].
Qed.

Lemma is_multiple_of_misaligned (a b : list Z) :
  Forall (λ v, v ≠ 0) b → length a = length b → ¬ aligned a b →
  is_multiple_of a b = Ok false.
Proof.
  intros Hb Hlen Hal.
  destruct (is_multiple_of_spec a b Hb) as (r & -> & Hr).
  f_equal. destruct r; [|done]. destruct Hal. by apply Hr.
Qed.

(** The alignment assertions change nothing that is stored. *)
Lemma check_alignment_storage kw w :
  same_storage w (check_alignment kw w).2.
Proof.
  unfold check_alignment, mbind, M_bind, lift, mret, M_ret, logger.
  destruct (is_multiple_of _ _) as [[|]|e]; try done. cbn.
  destruct (is_multiple_of _ _) as [[|]|e]; try done. cbn.
  destruct (kw_write_roi kw) as [r|]; cbn.
  - destruct (kw_write_size kw) as [ws|]; cbn;
      by destruct (is_multiple_of _ _) as [[|]|e].
  - destruct (kw_write_size kw) as [ws|]; cbn; [|done].
    by destruct (is_multiple_of _ _) as [[|]|e].
Qed.

Lemma check_alignment_misaligned kw w :
  let voxel_size := kw_voxel_size kw in
  Forall (λ v, v ≠ 0) voxel_size →
  length (roi_shape (kw_total_roi kw)) = length voxel_size →
  length (roi_begin (kw_total_roi kw)) = length voxel_size →
  (¬ aligned (roi_shape (kw_total_roi kw)) voxel_size ∨
   ¬ aligned (roi_begin (kw_total_roi kw)) voxel_size ∨
   ∃ ws, effective_write_size kw = Some ws ∧ length ws = length voxel_size ∧
         ¬ aligned ws voxel_size) →
  ∃ a, (check_alignment kw w).1 = Err (AssertionError a) ∧ alignment_assertion a.
Proof.
  intros vs Hnz Hl1 Hl2 Hmis.
  unfold check_alignment, mbind, M_bind, lift, mret, M_ret, logger. fold vs.
  destruct (is_multiple_of_spec (roi_shape (kw_total_roi kw)) vs Hnz)
    as (r1 & -> & Hr1).
  destruct r1; cbn; [|eexists; split; [done|by left]].
  destruct (is_multiple_of_spec (roi_begin (kw_total_roi kw)) vs Hnz)
    as (r2 & -> & Hr2).
  destruct r2; cbn; [|eexists; split; [done|by right; left]].
  destruct Hmis as [H|[H|(ws & Hws & Hl3 & H)]].
  - destruct H. by apply Hr1.
  - destruct H. by apply Hr2.
  - unfold effective_write_size in Hws.
    destruct (kw_write_roi kw) as [r|], (kw_write_size kw) as [ws'|];
      simplify_eq; cbn;
      rewrite (is_multiple_of_misaligned _ vs) by done; cbn;
      (eexists; split; [done|right; right; by do 2 eexists]).
Qed.

Section Provisioner.

Variable B : backend.

Lemma prepare_ds_alignment_error fuel kw w e :
  (check_alignment kw w).1 = Err e →
  prepare_ds B (S fuel) kw w = (Err e, (check_alignment kw w).2).
Proof.
  intros H. cbn [prepare_ds]. unfold mbind at 1, M_bind at 1.
  destruct (check_alignment kw w) as [[ws|e'] w']; cbn in *; congruence.
Qed.

(** C8: a request whose total Roi has a shape or an offset that is not an
    exact multiple of the voxel size, or whose write size is not, is refused
    with one of the alignment assertions, and the containers, datasets and
    descriptor files are what they were before the call. *)
Theorem prepare_ds_rejects_misaligned fuel kw w :
  Forall (λ v, v ≠ 0) (kw_voxel_size kw) →
  length (roi_shape (kw_total_roi kw)) = length (kw_voxel_size kw) →
  length (roi_begin (kw_total_roi kw)) = length (kw_voxel_size kw) →
  (¬ aligned (roi_shape (kw_total_roi kw)) (kw_voxel_size kw) ∨
   ¬ aligned (roi_begin (kw_total_roi kw)) (kw_voxel_size kw) ∨
   ∃ ws, effective_write_size kw = Some ws ∧
         length ws = length (kw_voxel_size kw) ∧
         ¬ aligned ws (kw_voxel_size kw)) →
  ∃ a w', prepare_ds B (S fuel) kw w = (Err (AssertionError a), w') ∧
          alignment_assertion a ∧ same_storage w w'.
Proof.
  intros Hnz Hl1 Hl2 Hmis.
  destruct (check_alignment_misaligned kw w Hnz Hl1 Hl2 Hmis) as (a & Ha & Hal).
  exists a, (check_alignment kw w).2. split; [|split; [done|]].
  - by apply prepare_ds_alignment_error.
  - apply check_alignment_storage.
Qed.

End Provisioner.

Lemma prepare_ds_rejects_misaligned_witness :
  ∃ a w',
    prepare_ds (mkBackend (λ shape, shape) (λ _, true)) 1
      (mkArgs "a.zarr" "ds" (mkRoi [0] [10]) [4] "uint8" None None None
         (Some (CompressorName "default")) false false)
      (mkWorld ∅ ∅ ∅ ∅ []) = (Err (AssertionError a), w') ∧
    alignment_assertion a ∧ same_storage (mkWorld ∅ ∅ ∅ ∅ []) w'.
Proof.
  apply (prepare_ds_rejects_misaligned (mkBackend (λ shape, shape) (λ _, true)) 0
           (mkArgs "a.zarr" "ds" (mkRoi [0] [10]) [4] "uint8" None None None
              (Some (CompressorName "default")) false false)).
  - repeat constructor. lia.
  - reflexivity.
  - reflexivity.
  - left. intros H. inversion H as [|? ? ? ? [m Hm] _]; subst. lia.
Defined.

(** *** Running a computation step by step *)

Lemma bind_ok {A C} (m : M A) (k : A → M C) w a w' :
  m w = (Ok a, w') → (m ≫= k) w = k a w'.
Proof. intros H. unfold mbind, M_bind. by rewrite H. Qed.

Lemma bind_err {A C} (m : M A) (k : A → M C) w e w' :
  m w = (Err e, w') → (m ≫= k) w = (Err e, w').
Proof. intros H. unfold mbind, M_bind. by rewrite H. Qed.

Lemma lift_ok {A} (r : result A) a w : r = Ok a → lift r w = (Ok a, w).
Proof. by intros ->. Qed.

(** *** Path suffixes *)

Lemma endswith_comparable s a b :
  endswith s a = true → endswith s b = true →
  endswith a b = true ∨ endswith b a = true.
Proof.
  unfold endswith. rewrite !bool_decide_eq_true. intros Ha Hb.
  destruct (suffix_weak_total _ _ _ Ha Hb); auto.
Qed.

Lemma endswith_exclusive s a b :
  endswith a b = false → endswith b a = false →
  endswith s a = true → endswith s b = false.
Proof.
  intros Hab Hba Ha. destruct (endswith s b) eqn:Hb; [|done].
  destruct (endswith_comparable s a b Ha Hb); congruence.
Qed.

Lemma file_format_zarr filename :
  endswith filename ".zarr" = true → file_format filename = Ok "zarr".
Proof.
  intros H. unfold file_format.
  rewrite (endswith_exclusive filename ".zarr" ".h5"),
          (endswith_exclusive filename ".zarr" ".hdf"), H by done.
  done.
Qed.

Lemma file_format_n5 filename :
  endswith filename ".n5" = true → file_format filename = Ok "n5".
Proof.
  intros H. unfold file_format.
  rewrite (endswith_exclusive filename ".n5" ".h5"),
          (endswith_exclusive filename ".n5" ".hdf"),
          (endswith_exclusive filename ".n5" ".zarr"), H by done.
  done.
Qed.

(** *** Planning *)

Lemma get_chunk_size_dim_bounds b t :
  1 ≤ b → ∃ c, get_chunk_size_dim b t = Ok c ∧ 1 ≤ c ≤ b.
Proof.
  intros Hb. unfold get_chunk_size_dim.
  destruct (get_chunk_size_dim_best b t Hb) as (k & -> & _ & Hk & _).
  exists (b / k). split; [done|]. split.
  - apply Z.div_le_lower_bound; lia.
  - apply Z.div_le_upper_bound; nia.
Qed.

Lemma get_chunk_shape_ok (block_shape : list Z) :
  Forall (λ b, 1 ≤ b) block_shape →
  ∃ cs, get_chunk_shape block_shape = Ok cs ∧
        length cs = length block_shape ∧ Forall (λ c, 1 ≤ c) cs.
Proof.
  induction 1 as [|b bs Hb _ (cs & Hcs & Hlen & Hpos)].
  - by exists [].
  - destruct (get_chunk_size_dim_bounds b 256 Hb) as (c & Hc & Hc1).
    exists (c :: cs). cbn. rewrite Hc. cbn. rewrite Hcs. cbn.
    split; [done|]. split; [by rewrite Hlen|]. constructor; [lia|done].
Qed.

Lemma block_shape_positive (ws vs : list Z) :
  Forall (λ v, 0 < v) vs → Forall (λ x, 0 < x) ws → aligned ws vs →
  Forall (λ b, 1 ≤ b) (zip_with Z.div ws vs).
Proof.
  intros Hvs Hws Hal. induction Hal as [|x v ws vs [m ->] _ IH]; [constructor|].
  inversion Hvs; inversion Hws; subst. cbn. constructor; [|by apply IH].
  rewrite Z.div_mul by lia. nia.
Qed.

(** *** Well-formed requests *)

Lemma check_alignment_ok B kw w :
  request_ok B kw →
  ∃ w', check_alignment kw w = (Ok (effective_write_size kw), w') ∧
        same_storage w w' ∧ log w' = log w ++ deprecation_log kw.
Proof.
  intros [Hpos _ Hsh Hoff _ Hws _ _].
  unfold check_alignment, mbind, M_bind, lift, mret, M_ret, logger,
    effective_write_size, deprecation_log in *.
  rewrite (is_multiple_of_aligned _ _ Hpos Hsh). cbn.
  rewrite (is_multiple_of_aligned _ _ Hpos Hoff). cbn.
  destruct (kw_write_roi kw) as [r|], (kw_write_size kw) as [ws|]; cbn.
  - destruct (Hws ws eq_refl) as [Hal _].
    rewrite (is_multiple_of_aligned _ _ Hpos Hal). cbn. by eexists.
  - destruct (Hws _ eq_refl) as [Hal _].
    rewrite (is_multiple_of_aligned _ _ Hpos Hal). cbn. by eexists.
  - destruct (Hws ws eq_refl) as [Hal _].
    rewrite (is_multiple_of_aligned _ _ Hpos Hal). cbn.
    eexists. split; [done|]. split; [done|]. by rewrite app_nil_r.
  - eexists. split; [done|]. split; [done|]. by rewrite app_nil_r.
Qed.

Lemma plan_geometry_ok B kw :
  request_ok B kw →
  ∃ g, plan_geometry kw (effective_write_size kw) = Ok g ∧ geometry_ok kw g.
Proof.
  intros [Hpos _ Hsh _ Hfmt Hws _ _].
  pose proof (Forall_pos_nonzero _ Hpos) as Hnz.
  assert (∃ f, file_format (kw_filename kw) = Ok f ∧
               ((f = "zarr" ∧ endswith (kw_filename kw) ".zarr" = true) ∨
                (f = "n5" ∧ endswith (kw_filename kw) ".n5" = true)))
    as (f & Hf & Hf').
  { destruct Hfmt as [H|H].
    - exists "zarr". split; [by apply file_format_zarr|]. by left.
    - exists "n5". split; [by apply file_format_n5|]. by right. }
  assert (match effective_write_size kw with
          | Some ws =>
              ∃ cs, plan_chunk_shape (Some ws) (kw_voxel_size kw)
                      (kw_force_exact_write_size kw) = Ok (Some cs) ∧
                    length cs = length (kw_voxel_size kw) ∧
                    Forall (λ c, 1 ≤ c) cs
          | None => True
          end) as Hchunk.
  { destruct (effective_write_size kw) as [ws|]; [|done].
    destruct (Hws ws eq_refl) as [Hal Hwpos].
    pose proof (block_shape_positive _ _ Hpos Hwpos Hal) as Hb.
    unfold plan_chunk_shape.
    rewrite coord_div_ok by (done || by eapply Forall2_length). cbn.
    assert (length (zip_with Z.div ws (kw_voxel_size kw)) =
            length (kw_voxel_size kw)) as Hlen.
    { rewrite length_zip_with. apply Forall2_length in Hal. lia. }
    destruct (kw_force_exact_write_size kw); cbn.
    - by eexists.
    - destruct (get_chunk_shape_ok _ Hb) as (cs & -> & Hl & Hc). cbn.
      exists cs. split; [done|]. split; [congruence|done]. }
  unfold plan_geometry. rewrite Hf. cbn.
  rewrite (coord_div_ok (roi_shape (kw_total_roi kw)))
    by (done || by eapply Forall2_length).
  unfold geometry_ok.
  destruct (effective_write_size kw) as [ws|].
  - destruct Hchunk as (cs & Hcs & Hl & Hc). rewrite Hcs. cbn.
    destruct (kw_num_channels kw) as [n|]; cbn;
      (eexists; split; [done|]; cbn; repeat split; try done; by exists cs).
  - cbn. destruct (kw_num_channels kw) as [n|]; cbn;
      (eexists; split; [done|]; cbn; by repeat split).
Qed.

(** *** Paths below a container *)

Lemma elem_of_entries e w :
  e ∈ entries w ↔ is_Some (datasets w !! e) ∨ e ∈ directories w.
Proof.
  unfold entries. rewrite elem_of_app, list_elem_of_fmap, elem_of_elements.
  split.
  - intros [([k v] & -> & Hkv)|H]; [left|by right].
    apply elem_of_map_to_list in Hkv. by eexists.
  - intros [[v Hv]|H]; [left|by right].
    exists (e, v). split; [done|]. by apply elem_of_map_to_list.
Qed.

Lemma key_exists_false filename w key :
  key_exists filename w key = false ↔ no_entry_below filename key w.
Proof.
  unfold key_exists, no_entry_below.
  rewrite bool_decide_eq_false, Exists_exists. split.
  - intros Hno e He Hf Hpre. apply Hno. exists e.
    split; [by apply elem_of_entries|done].
  - intros Hno (e & He & Hf & Hpre).
    by apply (Hno e); [apply elem_of_entries|..].
Qed.

Lemma split_slash_nonempty s : split_slash s ≠ [].
Proof.
  induction s as [|c s IH]; [done|]. cbn.
  destruct (Ascii.eqb c "/"); [done|]. by destruct (split_slash s).
Qed.

Lemma proper_component_spec c :
  proper_component c = true → c ≠ "" ∧ c ≠ "." ∧ c ≠ "..".
Proof.
  unfold proper_component. rewrite !andb_true_iff, !negb_true_iff.
  intros [[[H1 H2] H3] _]. by rewrite !String.eqb_neq in *.
Qed.

(** The file system and the backend agree on the components of a proper
    name. *)
Lemma proper_name_components name :
  proper_name name = true →
  path_components name = split_slash name ∧
  Forall (λ c, c ≠ "..") (split_slash name).
Proof.
  unfold proper_name, path_components.
  induction (split_slash name) as [|c l IH]; [done|]. cbn [forallb].
  intros [Hc Hl]%andb_true_iff.
  destruct (proper_component_spec c Hc) as (H1 & H2 & H3).
  destruct (IH Hl) as [IH1 IH2].
  rewrite filter_cons_True by done. rewrite IH1. split; [done|by constructor].
Qed.

Lemma walk_inside exists_at key components :
  Forall (λ c, c ≠ "..") components →
  walk exists_at (Inside key) components = Some (Inside (key ++ components)).
Proof.
  intros H. revert key. induction H as [|c l Hc _ IH]; intros key.
  - by rewrite app_nil_r.
  - cbn. apply String.eqb_neq in Hc. rewrite Hc, IH.
    by rewrite <- app_assoc.
Qed.

Lemma resolve_proper filename name w :
  proper_name name = true →
  resolve filename name w = Some (Inside (split_slash name)).
Proof.
  intros Hp. destruct (proper_name_components name Hp) as [Hc Hdots].
  unfold resolve. rewrite Hc. by apply walk_inside.
Qed.

(** The subpath of a proper name is no directory exactly when nothing is
    stored at its components or below them. *)
Lemma subpath_isdir_proper filename name w :
  proper_name name = true →
  subpath_isdir filename name w = false ↔
  no_entry_below filename (split_slash name) w.
Proof.
  intros Hp. unfold subpath_isdir. rewrite (resolve_proper _ _ _ Hp).
  destruct (proper_name_components name Hp) as [Hc _].
  pose proof (split_slash_nonempty name) as Hne.
  destruct (split_slash name) as [|c l] eqn:Hsplit; [done|]. clear Hne.
  rewrite <- key_exists_false. split.
  - by intros [_ H]%orb_false_iff.
  - intros Hno. rewrite Hno, orb_false_r.
    apply key_exists_false in Hno.
    apply orb_false_iff; split; apply bool_decide_eq_false_2; intros Hs.
    + apply (Hno (filename, name)); [by left|done|]. cbn [snd]. by rewrite Hc.
    + apply (Hno (filename, name)); [by right|done|]. cbn [snd]. by rewrite Hc.
Qed.

Lemma subpath_isdir_stored filename name ds w :
  datasets w !! (filename, name) = Some ds → subpath_isdir filename name w = true.
Proof.
  intros H. unfold subpath_isdir. by rewrite bool_decide_eq_true_2 by by eexists.
Qed.

Lemma subpath_isdir_not_stored filename name w :
  subpath_isdir filename name w = false → datasets w !! (filename, name) = None.
Proof.
  unfold subpath_isdir. intros [[H _]%orb_false_iff _]%orb_false_iff.
  apply bool_decide_eq_false in H.
  destruct (datasets w !! (filename, name)) as [ds|]; [|done].
  destruct H. by eexists.
Qed.

Lemma subpath_isdir_same_storage filename name w w' :
  same_storage w w' → subpath_isdir filename name w' = subpath_isdir filename name w.
Proof.
  intros (Hc & Hd & Hg & _).
  unfold subpath_isdir, resolve, key_exists, entries. by rewrite Hc, Hd, Hg.
Qed.

Lemma remove_tree_same_storage filename name w w' :
  same_storage w w' →
  same_storage (remove_tree filename name w) (remove_tree filename name w').
Proof.
  intros (Hc & Hd & Hg & Hj).
  unfold remove_tree, resolve, key_exists, entries.
  rewrite Hc, Hd, Hg. by repeat split.
Qed.

(** What [shutil.rmtree] has removed is no directory any more. *)
Lemma remove_tree_fresh filename name w :
  proper_name name = true →
  subpath_isdir filename name (remove_tree filename name w) = false.
Proof.
  intros Hp. apply (subpath_isdir_proper _ _ _ Hp). intros e He Hf Hpre.
  assert (removed filename name (resolve filename name w) e) as Hrem.
  { split; [done|]. right. rewrite (resolve_proper _ _ _ Hp). cbn.
    by apply bool_decide_eq_true_2. }
  unfold remove_tree in He. cbn in He. destruct He as [[ds Hds]|He].
  - apply map_lookup_filter_Some in Hds as [_ Hkeep]. by apply Hkeep.
  - apply elem_of_filter in He as [Hkeep _]. by apply Hkeep.
Qed.

(** *** Creation *)

Lemma ensure_container_run filename w :
  ∃ w', ensure_container filename w = (Ok (), w') ∧
        filename ∈ containers w' ∧
        descriptors w' = descriptors w ∧ log w' = log w ∧
        (filename ∈ containers w → w' = w) ∧
        (∀ k, datasets w !! k = None → datasets w' !! k = None).
Proof.
  unfold ensure_container, mbind, M_bind, isdir, makedirs, backend_open,
    mret, M_ret.
  cbn. case_bool_decide as Hin; cbn.
  - exists w. by repeat split.
  - eexists. split; [done|]. cbn. repeat split; try done.
    + set_solver.
    + intros k Hk. apply map_lookup_filter_None. by left.
Qed.

(** Making the container does not make the subpath of a proper name a
    directory. *)
Lemma ensure_container_fresh filename name w w' :
  proper_name name = true →
  subpath_isdir filename name w = false →
  ensure_container filename w = (Ok (), w') →
  subpath_isdir filename name w' = false.
Proof.
  intros Hp. rewrite !(subpath_isdir_proper _ _ _ Hp). intros Hno Hens.
  intros e He. apply Hno. revert Hens.
  unfold ensure_container, mbind, M_bind, isdir, makedirs, backend_open,
    mret, M_ret.
  cbn. case_bool_decide as Hin; cbn; intros [= <-]; [done|]. cbn in He.
  destruct He as [[ds Hds]|He].
  - left. apply map_lookup_filter_Some in Hds as [Hds _]. by eexists.
  - right. by apply elem_of_filter in He as [_ He].
Qed.

Lemma create_new_run B kw g w :
  let filename := kw_filename kw in
  let ds_name := lstrip_slash (kw_ds_name kw) in
  request_ok B kw → geometry_ok kw g →
  datasets w !! (filename, ds_name) = None →
  ∃ w', create_new B filename ds_name (g_format g) (kw_total_roi kw)
          (kw_voxel_size kw) (g_shape g) (g_chunk_shape g) (kw_dtype kw)
          (resolve_compressor (kw_compressor kw))
          (g_voxel_size_with_channels g) w =
        (Ok (mkArray (fresh_dataset B kw g) (kw_total_roi kw) (kw_voxel_size kw)
               None
               ((λ cs, zip_with Z.div cs
                         (prepend_channels ((λ _, 1) <$> kw_num_channels kw)
                            (kw_voxel_size kw))) <$> g_chunk_shape g)), w') ∧
        containers w' = {[filename]} ∪ containers w ∧
        datasets w' = <[(filename, ds_name) := fresh_dataset B kw g]> (datasets w) ∧
        descriptors w' = descriptors w ∧ log w' = log w.
Proof.
  intros filename ds_name [Hpos _ _ _ _ _ Hcodec _] (Hfmt & Hshape & Hvc & Hchunk) Hnone.
  pose proof (Forall_pos_nonzero _ Hpos) as Hnz.
  unfold create_new.
  (* the codec *)
  assert (match resolve_compressor (kw_compressor kw) with
          | Some spec => Some <$> get_codec B spec
          | None => Ok None
          end = Ok (resolve_compressor (kw_compressor kw))) as Hc.
  { destruct (resolve_compressor (kw_compressor kw)) as [spec|] eqn:Hr; [|done].
    unfold get_codec. by rewrite (Hcodec spec eq_refl). }
  rewrite (bind_ok _ _ _ _ _ (lift_ok _ _ w Hc)).
  unfold mbind, M_bind, backend_open, create_dataset, setattr, backend_getitem,
    lift, mret, M_ret.
  cbn. fold filename ds_name. rewrite Hnone. cbn.
  (* the second division of the chunk shape *)
  assert (match g_chunk_shape g with
          | Some cs =>
              Some <$> coord_div cs
                         (default (kw_voxel_size kw) (g_voxel_size_with_channels g))
          | None => Ok None
          end =
          Ok ((λ cs, zip_with Z.div cs
                       (prepend_channels ((λ _, 1) <$> kw_num_channels kw)
                          (kw_voxel_size kw))) <$> g_chunk_shape g)) as Hdiv.
  { rewrite Hvc. destruct (effective_write_size kw) as [ws|].
    - destruct Hchunk as (cs & -> & Hl & _).
      destruct (kw_num_channels kw) as [n|]; cbn.
      + rewrite coord_div_ok; [done|cbn; by rewrite Hl|].
        constructor; [lia|done].
      + by rewrite coord_div_ok.
    - by rewrite Hchunk. }
  destruct (String.eqb (g_format g) "zarr") eqn:Hz; cbn;
    rewrite Hdiv; cbn;
    rewrite !alter_insert_eq, lookup_insert_eq; cbn;
    unfold fresh_dataset, stored_attrs; rewrite Hz;
    (eexists; split; [done|]; cbn; by rewrite ?insert_insert_eq).
Qed.

(** *** Opening an existing dataset *)

Lemma set_containers_present filename w :
  filename ∈ containers w → set_containers ({[filename]} ∪ containers w) w = w.
Proof.
  intros Hin. destruct w as [c d j l]. unfold set_containers. cbn in *.
  f_equal. set_solver.
Qed.

Lemma open_dataset_run filename ds_name mode ds w :
  mode = "a" ∨ mode = "r" ∨ mode = "r+" →
  filename ∈ containers w →
  datasets w !! (filename, ds_name) = Some ds →
  open_dataset filename ds_name mode w = (Ok ds, w).
Proof.
  intros Hmode Hin Hds.
  unfold open_dataset, mbind, M_bind, backend_open, backend_getitem.
  destruct Hmode as [->|[->| ->]]; cbn;
    rewrite ?set_containers_present by done;
    rewrite ?bool_decide_eq_true_2 by done; by rewrite Hds.
Qed.

(** On a [.zarr] or [.n5] container that holds the dataset, the opener
    returns what [assemble] makes of it and leaves the world as it is. *)
Lemma open_ds_run filename ds_name mode ds w :
  endswith filename ".zarr" = true ∨ endswith filename ".n5" = true →
  mode = "a" ∨ mode = "r" ∨ mode = "r+" →
  filename ∈ containers w →
  datasets w !! (filename, ds_name) = Some ds →
  open_ds 1 filename ds_name mode w =
  (assemble ds (native_order filename ds), w).
Proof.
  intros Hfmt Hmode Hin Hds. cbn [open_ds]. unfold native_order.
  pose proof (open_dataset_run filename ds_name mode ds w Hmode Hin Hds) as Hopen.
  destruct Hfmt as [Hz|Hn].
  - rewrite Hz, (endswith_exclusive filename ".zarr" ".zip"),
      (endswith_exclusive filename ".zarr" ".n5") by done.
    cbn. unfold mbind, M_bind, lift, assert_, log_failure. by rewrite Hopen.
  - rewrite Hn, (endswith_exclusive filename ".n5" ".zarr"),
      (endswith_exclusive filename ".n5" ".zip") by done.
    cbn. unfold mbind, M_bind, lift. by rewrite Hopen.
Qed.

(** A resolved voxel size has no zero component and the dimension of the
    offset. *)
Lemma snap_if_misaligned_ok offset voxel_size s :
  snap_if_misaligned offset voxel_size = Ok s →
  length offset = length voxel_size ∧ Forall (λ v, v ≠ 0) voxel_size.
Proof.
  unfold snap_if_misaligned, offset_misaligned, coord_div.
  case_bool_decide as Hlen; [|done]. cbn.
  destruct (existsb (Z.eqb 0) voxel_size) eqn:Hz; [done|]. intros _.
  split; [done|]. apply Forall_forall. intros v Hv ->.
  assert (existsb (Z.eqb 0) voxel_size = true); [|congruence].
  apply existsb_exists. exists 0. split; [by apply list_elem_of_In|done].
Qed.

Lemma read_voxel_size_offset_ok attrs shape order voxel_size offset :
  _read_voxel_size_offset attrs shape order = Ok (voxel_size, offset) →
  Forall (λ v, v ≠ 0) voxel_size.
Proof.
  unfold _read_voxel_size_offset.
  destruct (read_voxel_size attrs order) as [vs|]; [|done]. cbn.
  destruct (read_offset attrs order (length <$> vs)) as [[off dims]|]; [|done].
  cbn. destruct (snap_if_misaligned _ _) as [s|] eqn:Hs; [|done]. cbn.
  intros [= <- <-]. by apply snap_if_misaligned_ok in Hs as [_ Hz].
Qed.

Lemma assemble_shape_ok ds order h :
  assemble ds order = Ok h → ∃ found, Array_shape h = Ok found.
Proof.
  unfold assemble.
  destruct (_read_voxel_size_offset _ _ _) as [[vs off]|] eqn:Hread; [|done].
  cbn. apply read_voxel_size_offset_ok in Hread.
  unfold coord_mul, coord_binop. case_bool_decide as Hlen; [|done]. cbn.
  intros [= <-]. unfold Array_shape. cbn.
  rewrite coord_div_ok; [by eexists| |done].
  rewrite length_zip_with. lia.
Qed.

(** *** The compatibility checks *)

Lemma log_add_nil w : log_add [] w = w.
Proof. destruct w. unfold log_add. cbn. by rewrite app_nil_r. Qed.

Lemma log_add_app rs1 rs2 w : log_add rs2 (log_add rs1 w) = log_add (rs1 ++ rs2) w.
Proof. unfold log_add. cbn. by rewrite app_assoc. Qed.

Lemma differ_run b r compatible w :
  differ b r compatible w = (Ok (compatible && negb b), log_add (record_if b r) w).
Proof.
  unfold differ. destruct b; cbn.
  - by rewrite andb_false_r.
  - by rewrite log_add_nil, andb_true_r.
Qed.

Lemma compatible_with_run ds found shape total_roi voxel_size write_size
    chunk_shape dtype w :
  Array_shape ds = Ok found →
  let ms := mismatches ds found shape total_roi voxel_size write_size
              chunk_shape dtype in
  compatible_with ds shape total_roi voxel_size write_size chunk_shape dtype w =
  (Ok (bool_decide (ms = [])), log_add ms w).
Proof.
  intros Hshape ms. unfold compatible_with.
  rewrite (bind_ok _ _ _ _ _ (lift_ok _ _ w Hshape)).
  rewrite (bind_ok _ _ _ _ _ (differ_run _ _ _ _)).
  rewrite (bind_ok _ _ _ _ _ (differ_run _ _ _ _)).
  rewrite (bind_ok _ _ _ _ _ (differ_run _ _ _ _)).
  rewrite (bind_ok _ _ _ _ _ (differ_run _ _ _ _)).
  rewrite differ_run, !log_add_app.
  subst ms. unfold mismatches.
  generalize (bool_decide (found ≠ shape)) as b1.
  generalize (bool_decide (array_roi ds ≠ total_roi)) as b2.
  generalize (bool_decide (array_voxel_size ds ≠ voxel_size)) as b3.
  generalize (bool_decide (is_Some write_size) &&
              bool_decide (ds_chunks (array_data ds) ≠ chunk_shape)) as b4.
  generalize (bool_decide (dtype ≠ Array_dtype ds)) as b5.
  intros b5 b4 b3 b2 b1. f_equal. f_equal.
  by destruct b1, b2, b3, b4, b5.
Qed.

Section Existing.

Variable B : backend.

(** The steps of [prepare_ds] up to the comparison, for a request that
    passes the assertions and the planning and finds its dataset stored. *)
Lemma prepare_ds_existing fuel kw w ws w1 g ds h found :
  let filename := kw_filename kw in
  let ds_name := lstrip_slash (kw_ds_name kw) in
  let ms := mismatches h found (g_shape g) (kw_total_roi kw) (kw_voxel_size kw)
              ws (g_chunk_shape g) (kw_dtype kw) in
  check_alignment kw w = (Ok ws, w1) →
  plan_geometry kw ws = Ok g →
  filename ∈ containers w →
  datasets w !! (filename, ds_name) = Some ds →
  assemble ds (native_order filename ds) = Ok h →
  Array_shape h = Ok found →
  prepare_ds B (S fuel) kw w =
  if bool_decide (ms = []) then (Ok h, log_add (ms ++ [InfoReusing]) w1)
  else if kw_delete kw then
    prepare_ds B fuel
      (mkArgs filename ds_name (kw_total_roi kw) (kw_voxel_size kw)
         (kw_dtype kw) None ws (kw_num_channels kw)
         (resolve_compressor (kw_compressor kw)) false false)
      (remove_tree filename ds_name (log_add (ms ++ [InfoCreatingNew]) w1))
  else (Err (RuntimeError (ExistingNotCompatible filename ds_name)),
        log_add ms w1).
Proof.
  intros filename ds_name ms Hcheck Hplan Hin Hds Hasm Hshape.
  pose proof (check_alignment_storage kw w) as Hsame.
  rewrite Hcheck in Hsame. destruct Hsame as (Hc & Hd & _). cbn in Hc, Hd.
  assert (endswith filename ".zarr" = true ∨ endswith filename ".n5" = true)
    as Hfmt.
  { unfold plan_geometry, file_format in Hplan. fold filename in Hplan.
    destruct (endswith filename ".h5" || endswith filename ".hdf"); [done|].
    destruct (endswith filename ".zarr"); [by left|].
    destruct (endswith filename ".n5"); [by right|done]. }
  cbn [prepare_ds].
  rewrite (bind_ok _ _ _ _ _ Hcheck).
  rewrite (bind_ok _ _ _ _ _ (lift_ok _ _ w1 Hplan)).
  destruct (ensure_container_run filename w1) as (w2 & Hens & _ & _ & _ & Hw2 & _).
  rewrite Hw2 in Hens by (by rewrite Hc).
  fold filename ds_name.
  rewrite (bind_ok _ _ _ _ _ Hens).
  assert (datasets w1 !! (filename, ds_name) = Some ds) as Hds1 by congruence.
  unfold isdir_join at 1. unfold mbind at 1, M_bind at 1.
  rewrite (subpath_isdir_stored _ _ _ _ Hds1). cbn [negb].
  assert (open_ds 1 filename ds_name "a" w1 = (Ok h, w1)) as Hopen.
  { rewrite <- Hasm. apply open_ds_run; try done; [by left|congruence..]. }
  rewrite (bind_ok _ _ _ _ _ Hopen).
  rewrite (bind_ok _ _ _ _ _
             (compatible_with_run h found _ _ _ _ _ _ w1 Hshape)).
  fold ms. destruct (bool_decide (ms = [])); cbn [negb].
  - unfold mbind, M_bind, logger, mret, M_ret, log_add. cbn.
    by rewrite <- app_assoc.
  - destruct (kw_delete kw); cbn [negb]; [|done].
    assert (logger InfoCreatingNew (log_add ms w1) =
            (Ok (), log_add (ms ++ [InfoCreatingNew]) w1)) as Hlog.
    { unfold logger, log_add. cbn. by rewrite <- app_assoc. }
    rewrite (bind_ok _ _ _ _ _ Hlog).
    assert (rmtree filename ds_name (log_add (ms ++ [InfoCreatingNew]) w1) =
            (Ok (), remove_tree filename ds_name
                      (log_add (ms ++ [InfoCreatingNew]) w1))) as Hrm.
    { unfold rmtree. by rewrite (subpath_isdir_stored _ _ ds). }
    by rewrite (bind_ok _ _ _ _ _ Hrm).
Qed.

End Existing.

(** *** Fresh creation and reuse *)

Section Fresh.

Variable B : backend.

Lemma prepare_ds_fresh fuel kw w :
  let filename := kw_filename kw in
  let ds_name := lstrip_slash (kw_ds_name kw) in
  request_ok B kw →
  subpath_isdir filename ds_name w = false →
  ∃ g w',
    plan_geometry kw (effective_write_size kw) = Ok g ∧ geometry_ok kw g ∧
    prepare_ds B (S fuel) kw w =
      (Ok (mkArray (fresh_dataset B kw g) (kw_total_roi kw) (kw_voxel_size kw)
             None
             ((λ cs, zip_with Z.div cs
                       (prepend_channels ((λ _, 1) <$> kw_num_channels kw)
                          (kw_voxel_size kw))) <$> g_chunk_shape g)), w') ∧
    filename ∈ containers w' ∧
    datasets w' !! (filename, ds_name) = Some (fresh_dataset B kw g) ∧
    descriptors w' = descriptors w.
Proof.
  intros filename ds_name Hok Hfresh.
  destruct (check_alignment_ok B kw w Hok) as (w1 & Hcheck & Hsame1 & _).
  pose proof Hsame1 as (Hc1 & Hd1 & Hg1 & Hj1).
  destruct (plan_geometry_ok B kw Hok) as (g & Hplan & Hg).
  destruct (ensure_container_run filename w1)
    as (w2 & Hens & Hin2 & Hj2 & _ & _ & Hd2).
  assert (subpath_isdir filename ds_name w2 = false) as Hfresh2.
  { apply (ensure_container_fresh filename ds_name w1 w2 (ok_name _ _ Hok));
      [|done].
    by rewrite (subpath_isdir_same_storage _ _ w w1). }
  pose proof (subpath_isdir_not_stored _ _ _ Hfresh2) as Hnone2.
  destruct (create_new_run B kw g w2 Hok Hg Hnone2)
    as (w3 & Hnew & Hc3 & Hd3 & Hj3 & _).
  exists g, w3. split; [done|]. split; [done|]. split; [|split; [|split]].
  - cbn [prepare_ds].
    rewrite (bind_ok _ _ _ _ _ Hcheck).
    rewrite (bind_ok _ _ _ _ _ (lift_ok _ _ w1 Hplan)).
    fold filename ds_name.
    rewrite (bind_ok _ _ _ _ _ Hens).
    unfold isdir_join at 1. unfold mbind at 1, M_bind at 1.
    rewrite Hfresh2. cbn [negb]. exact Hnew.
  - rewrite Hc3. set_solver.
  - rewrite Hd3. apply lookup_insert_eq.
  - congruence.
Qed.

(** Reading back the attributes written at creation gives the voxel size
    and the offset of the request. *)
Lemma read_stored_attrs format voxel_size offset shape :
  Forall (λ v, 0 < v) voxel_size → aligned offset voxel_size →
  _read_voxel_size_offset (stored_attrs format voxel_size offset) shape
    (if String.eqb format "zarr" then "C" else "F") = Ok (voxel_size, offset).
Proof.
  intros Hpos Hal. pose proof (Forall2_length _ _ _ Hal) as Hlen.
  assert (∀ (v o : list Z) order,
            length o = length v →
            _read_voxel_size_offset
              (<["offset" := VVec o]> (<["resolution" := VVec v]> ∅)) shape order =
            (let o := if String.eqb order "F" then rev o else o in
             let v := if String.eqb order "F" then rev v else v in
             s ← snap_if_misaligned o v; Ok (v, s))) as Hread.
  { intros v o order Hl.
    unfold _read_voxel_size_offset, read_voxel_size, read_offset.
    rewrite (lookup_insert_ne _ "offset" "resolution") by discriminate.
    rewrite !lookup_insert_eq. cbn.
    by rewrite bool_decide_eq_true_2 by done. }
  unfold stored_attrs. destruct (String.eqb format "zarr").
  - rewrite Hread by done. cbn.
    unfold snap_if_misaligned. by rewrite aligned_not_misaligned.
  - rewrite Hread by (by rewrite !length_rev). cbn.
    rewrite !rev_involutive.
    unfold snap_if_misaligned. by rewrite aligned_not_misaligned.
Qed.

Lemma zip_with_mul_div (shape voxel_size : list Z) :
  Forall (λ v, 0 < v) voxel_size → aligned shape voxel_size →
  zip_with Z.mul voxel_size (zip_with Z.div shape voxel_size) = shape.
Proof.
  intros Hpos Hal. induction Hal as [|x v xs vs [m ->] _ IH]; [done|].
  inversion Hpos; subst. cbn. rewrite Z.div_mul by lia.
  f_equal; [lia|by apply IH].
Qed.

Lemma last_n_prepend_channels num_channels (l : list Z) :
  l ≠ [] → last_n (length l) (prepend_channels num_channels l) = l.
Proof.
  intros Hl. unfold last_n. destruct l as [|x l]; [done|].
  cbn [length]. destruct num_channels as [n|]; cbn [prepend_channels length].
  - replace (S (S (length l)) - S (length l))%nat with 1%nat by lia. done.
  - replace (S (length l) - S (length l))%nat with 0%nat by lia. done.
Qed.

(** The dataset just created opens as a handle on the requested Roi. *)
Lemma assemble_fresh kw g :
  request_ok B kw → geometry_ok kw g →
  assemble (fresh_dataset B kw g)
    (native_order (kw_filename kw) (fresh_dataset B kw g)) =
  Ok (mkArray (fresh_dataset B kw g) (kw_total_roi kw) (kw_voxel_size kw) None
        (ds_chunks (fresh_dataset B kw g))).
Proof.
  intros [Hpos Hdim Hsh Hoff _ _ _ _] (Hfmt & Hshape & _ & _).
  pose proof (Forall2_length _ _ _ Hsh) as Hlen.
  assert (native_order (kw_filename kw) (fresh_dataset B kw g) =
          if String.eqb (g_format g) "zarr" then "C" else "F") as ->.
  { unfold native_order. destruct Hfmt as [[-> Hz]|[-> Hn]].
    - by rewrite (endswith_exclusive (kw_filename kw) ".zarr" ".n5").
    - by rewrite Hn. }
  unfold assemble. cbn [fresh_dataset ds_attrs ds_shape ds_chunks].
  rewrite read_stored_attrs by done. cbn.
  rewrite Hshape.
  replace (length (kw_voxel_size kw))
    with (length (zip_with Z.div (roi_shape (kw_total_roi kw)) (kw_voxel_size kw)))
    by (rewrite length_zip_with; lia).
  rewrite last_n_prepend_channels.
  - unfold coord_mul. rewrite coord_binop_ok by (rewrite length_zip_with; lia).
    cbn. rewrite zip_with_mul_div by done.
    unfold roi_begin. by destruct (kw_total_roi kw).
  - intros Hnil. apply (f_equal length) in Hnil.
    rewrite length_zip_with in Hnil. cbn in Hnil.
    destruct (kw_voxel_size kw); [done|]. cbn in *. lia.
Qed.

End Fresh.

Section Idempotence.

Variable B : backend.

Lemma fresh_compatible kw g :
  request_ok B kw → geometry_ok kw g →
  let h := mkArray (fresh_dataset B kw g) (kw_total_roi kw) (kw_voxel_size kw)
             None (ds_chunks (fresh_dataset B kw g)) in
  Array_shape h = Ok (g_shape g) ∧
  mismatches h (g_shape g) (g_shape g) (kw_total_roi kw) (kw_voxel_size kw)
    (effective_write_size kw) (g_chunk_shape g) (kw_dtype kw) = [].
Proof.
  intros [Hpos _ Hsh _ _ _ _ _] (_ & Hshape & _ & Hchunk) h.
  pose proof (Forall2_length _ _ _ Hsh) as Hlen. split.
  - unfold Array_shape. cbn.
    rewrite coord_div_ok by (done || by apply Forall_pos_nonzero). cbn.
    rewrite Hshape. f_equal.
    destruct (kw_num_channels kw) as [n|]; cbn.
    + replace (S (length (zip_with Z.div (roi_shape (kw_total_roi kw))
                            (kw_voxel_size kw))) -
               length (roi_shape (kw_total_roi kw)))%nat with 1%nat
        by (rewrite length_zip_with; lia). done.
    + replace (length (zip_with Z.div (roi_shape (kw_total_roi kw))
                         (kw_voxel_size kw)) -
               length (roi_shape (kw_total_roi kw)))%nat with 0%nat
        by (rewrite length_zip_with; lia). done.
  - unfold mismatches, Array_dtype. cbn.
    rewrite !(bool_decide_eq_false_2 (_ ≠ _)) by (by intros Hne; apply Hne).
    destruct (effective_write_size kw) as [ws|]; cbn.
    + destruct Hchunk as (cs & -> & _). cbn.
      by rewrite !bool_decide_eq_false_2 by (intros Hne; by apply Hne).
    + by rewrite ?bool_decide_eq_false_2 by (intros Hne; by apply Hne).
Qed.

(** The second of two identical calls finds the dataset of the first and
    reuses it. *)
Lemma prepare_ds_reuse fuel kw g w :
  let filename := kw_filename kw in
  let ds_name := lstrip_slash (kw_ds_name kw) in
  request_ok B kw →
  plan_geometry kw (effective_write_size kw) = Ok g → geometry_ok kw g →
  filename ∈ containers w →
  datasets w !! (filename, ds_name) = Some (fresh_dataset B kw g) →
  ∃ w', prepare_ds B (S fuel) kw w =
          (Ok (mkArray (fresh_dataset B kw g) (kw_total_roi kw)
                 (kw_voxel_size kw) None (ds_chunks (fresh_dataset B kw g))), w') ∧
        same_storage w w'.
Proof.
  intros filename ds_name Hok Hplan Hg Hin Hds.
  destruct (check_alignment_ok B kw w Hok) as (w1 & Hcheck & Hsame & _).
  destruct (fresh_compatible kw g Hok Hg) as [Hshape Hms].
  rewrite (prepare_ds_existing B fuel kw w _ w1 g _ _ _ Hcheck Hplan Hin Hds
             (assemble_fresh B kw g Hok Hg) Hshape).
  rewrite Hms. cbn. eexists. split; [done|].
  destruct Hsame as (? & ? & ? & ?). by repeat split.
Qed.

(** C2 (as amended): provisioning is idempotent for a well-formed request.
    For every request with a positive voxel size of dimension at least one,
    a total Roi and a write size aligned to it, a positive write size, a
    [.zarr] or [.n5] container, a codec the backend knows and a proper
    dataset name (components separated by single slashes, none of them
    empty, [.] or [..], no backslash), two calls with the same arguments,
    the first made where the subpath of the dataset is not a directory (no
    dataset and no group is found there), both return a handle, and the
    second handle has the shape, Roi, voxel size and dtype of the first. *)
Theorem prepare_ds_idempotent fuel fuel' kw w :
  request_ok B kw →
  subpath_isdir (kw_filename kw) (lstrip_slash (kw_ds_name kw)) w = false →
  ∃ a1 w1 a2 w2,
    prepare_ds B (S fuel) kw w = (Ok a1, w1) ∧
    prepare_ds B (S fuel') kw w1 = (Ok a2, w2) ∧
    Array_shape a2 = Array_shape a1 ∧
    array_roi a2 = array_roi a1 ∧
    array_voxel_size a2 = array_voxel_size a1 ∧
    Array_dtype a2 = Array_dtype a1 ∧
    array_roi a1 = kw_total_roi kw ∧
    array_voxel_size a1 = kw_voxel_size kw ∧
    Array_dtype a1 = kw_dtype kw ∧
    same_storage w1 w2.
Proof.
  intros Hok Hnone.
  destruct (prepare_ds_fresh B fuel kw w Hok Hnone)
    as (g & w1 & Hplan & Hg & Hfirst & Hin & Hds & _).
  destruct (prepare_ds_reuse fuel' kw g w1 Hok Hplan Hg Hin Hds)
    as (w2 & Hsecond & Hsame).
  do 4 eexists. split; [exact Hfirst|]. split; [exact Hsecond|].
  split; [reflexivity|]. do 6 (split; [reflexivity|]). exact Hsame.
Qed.

End Idempotence.

Lemma zip_with_div_shrinks (cs vs : list Z) :
  length cs = length vs →
  Forall (λ c, 1 ≤ c) cs → Forall (λ v, 0 < v) vs → Exists (λ v, v ≠ 1) vs →
  zip_with Z.div cs vs ≠ cs.
Proof.
  revert vs. induction cs as [|c cs IH]; intros [|v vs] Hlen Hcs Hvs Hex;
    try done.
  { inversion Hex. }
  injection Hlen as Hlen. inversion Hcs; inversion Hvs; subst. cbn.
  intros [= Hc Hrest]. inversion Hex as [? ? Hv|? ? Hv]; subst.
  - assert (c / v < c) by (apply Z.div_lt; lia). lia.
  - by apply (IH vs).
Qed.

Lemma zip_with_div_channels num_channels (cs vs : list Z) :
  zip_with Z.div (prepend_channels num_channels cs)
    (prepend_channels ((λ _, 1) <$> num_channels) vs) =
  prepend_channels num_channels (zip_with Z.div cs vs).
Proof. destruct num_channels as [n|]; cbn; [|done]. by rewrite Z.div_1_r. Qed.

Lemma prepend_channels_inj num_channels (l k : list Z) :
  prepend_channels num_channels l = prepend_channels num_channels k → l = k.
Proof. destruct num_channels; cbn; congruence. Qed.

(** C10 (as amended): on the fresh-creation path (a well-formed request
    with a proper dataset name whose subpath is not a directory) with a write
    size in force, all of whose components are positive, the [chunk_shape]
    of the handle returned is the planned chunk shape, in voxel units and as
    it is given to the backend, divided once more by the voxel size, the
    channel axis being divided by 1; it differs from the chunk geometry of
    the stored dataset as soon as one component of the voxel size is
    not 1. *)
Theorem fresh_chunk_shape_divided_twice B fuel kw w ws :
  request_ok B kw →
  subpath_isdir (kw_filename kw) (lstrip_slash (kw_ds_name kw)) w = false →
  effective_write_size kw = Some ws →
  ∃ a w' planned,
    prepare_ds B (S fuel) kw w = (Ok a, w') ∧
    plan_chunk_shape (Some ws) (kw_voxel_size kw)
      (kw_force_exact_write_size kw) = Ok (Some planned) ∧
    datasets w' !! (kw_filename kw, lstrip_slash (kw_ds_name kw)) =
      Some (array_data a) ∧
    ds_chunks (array_data a) =
      Some (prepend_channels (kw_num_channels kw) planned) ∧
    array_chunk_shape a =
      Some (prepend_channels (kw_num_channels kw)
              (zip_with Z.div planned (kw_voxel_size kw))) ∧
    (Exists (λ v, v ≠ 1) (kw_voxel_size kw) →
     array_chunk_shape a ≠ ds_chunks (array_data a)).
Proof.
  intros Hok Hnone Hws.
  destruct (prepare_ds_fresh B fuel kw w Hok Hnone)
    as (g & w' & _ & Hg & Hrun & _ & Hds & _).
  pose proof Hg as (_ & _ & _ & Hchunk). rewrite Hws in Hchunk.
  destruct Hchunk as (cs & Hcs & Hlen & Hpos & Hplan).
  eexists _, w', cs. split; [exact Hrun|]. split; [exact Hplan|].
  split; [exact Hds|]. cbn. rewrite Hcs. cbn.
  rewrite zip_with_div_channels. split; [done|]. split; [done|].
  intros Hex [= Heq]. apply prepend_channels_inj in Heq.
  by apply (zip_with_div_shrinks cs (kw_voxel_size kw) Hlen Hpos (ok_voxel_size _ _ Hok)).
Qed.

Lemma example_request_ok :
  request_ok example_backend (example_request "data.n5" "float32").
Proof.
  split; cbn.
  - repeat constructor.
  - done.
  - repeat constructor; [by exists 8|by exists 8].
  - repeat constructor; [by exists 0|by exists 2].
  - by right.
  - intros ws [= <-]. split.
    + repeat constructor; [by exists 4|by exists 4].
    + repeat constructor.
  - done.
  - reflexivity.
Defined.

Lemma fresh_chunk_shape_divided_twice_witness :
  ∃ a w' planned,
    prepare_ds example_backend 1 (example_request "data.n5" "float32")
      empty_world = (Ok a, w') ∧
    plan_chunk_shape (Some [8; 16]) [2; 4] false = Ok (Some planned) ∧
    datasets w' !! ("data.n5", "volumes/raw") = Some (array_data a) ∧
    ds_chunks (array_data a) = Some (prepend_channels (Some 3) planned) ∧
    array_chunk_shape a =
      Some (prepend_channels (Some 3) (zip_with Z.div planned [2; 4])) ∧
    (Exists (λ v, v ≠ 1) [2; 4] →
     array_chunk_shape a ≠ ds_chunks (array_data a)).
Proof.
  apply (fresh_chunk_shape_divided_twice example_backend 0
           (example_request "data.n5" "float32") empty_world [8; 16]).
  - exact example_request_ok.
  - reflexivity.
  - reflexivity.
Defined.

(** C10 fails as stated: with [force_exact_write_size] a write size with a
    zero component passes every assertion and is taken as the chunk shape;
    dividing it once more by the voxel size leaves it as it is, so that the
    handle and the stored dataset agree on the chunk shape although a
    component of the voxel size is not 1. *)
Lemma fresh_chunk_shape_zero_write_size_counterexample :
  let kw := zero_write_size_request in
  let r := prepare_ds example_backend 1 kw empty_world in
  subpath_isdir (kw_filename kw) (kw_ds_name kw) empty_world = false ∧
  effective_write_size kw = Some [8; 0] ∧
  Exists (λ v, v ≠ 1) (kw_voxel_size kw) ∧
  ∃ a, r.1 = Ok a ∧
       datasets r.2 !! ("data.zarr", "raw") = Some (array_data a) ∧
       ds_chunks (array_data a) = Some [8; 0] ∧
       array_chunk_shape a = ds_chunks (array_data a).
Proof.
  cbv zeta. split; [reflexivity|]. split; [reflexivity|]. split.
  - apply Exists_cons_tl, Exists_cons_hd. cbn. lia.
  - eexists. split; [by vm_compute|]. by vm_compute.
Qed.

Lemma prepare_ds_idempotent_witness :
  ∃ a1 w1 a2 w2,
    prepare_ds example_backend 1 (example_request "data.n5" "float32")
      empty_world = (Ok a1, w1) ∧
    prepare_ds example_backend 1 (example_request "data.n5" "float32") w1 =
      (Ok a2, w2) ∧
    Array_shape a2 = Array_shape a1 ∧
    array_roi a2 = array_roi a1 ∧
    array_voxel_size a2 = array_voxel_size a1 ∧
    Array_dtype a2 = Array_dtype a1 ∧
    array_roi a1 = mkRoi [0; 8] [16; 32] ∧
    array_voxel_size a1 = [2; 4] ∧
    Array_dtype a1 = "float32" ∧
    same_storage w1 w2.
Proof.
  apply (prepare_ds_idempotent example_backend 0 0
           (example_request "data.n5" "float32") empty_world).
  - exact example_request_ok.
  - reflexivity.
Defined.

(** C2 fails as stated: a request that satisfies every alignment
    precondition but names an HDF5 container is refused, on a fresh path and
    at the first call. *)
Lemma prepare_ds_hdf5_counterexample :
  check_alignment (example_request "data.h5" "float32") empty_world =
    (Ok (Some [8; 16]), empty_world) ∧
  prepare_ds example_backend 1 (example_request "data.h5" "float32")
    empty_world = (Err (RuntimeError HDF5NotSupported), empty_world).
Proof. split; by vm_compute. Qed.

(** C7 (as amended): when the dataset exists, opens as the handle [h] and
    fails at least one of the checks (shape, Roi, voxel size, chunk shape
    when a write size is in force, dtype) against a request that passes the
    assertions and the planning and has [delete] false, [prepare_ds] raises
    the [RuntimeError] that names the container path and the dataset name;
    every failed check is written to the log, not into the error; the
    containers, datasets and descriptor files are unchanged, and opening the
    same path afterwards returns the same handle [h]. *)
Theorem prepare_ds_refuses_incompatible B fuel kw w ws w1 g ds h found :
  let filename := kw_filename kw in
  let ds_name := lstrip_slash (kw_ds_name kw) in
  let ms := mismatches h found (g_shape g) (kw_total_roi kw) (kw_voxel_size kw)
              ws (g_chunk_shape g) (kw_dtype kw) in
  check_alignment kw w = (Ok ws, w1) →
  plan_geometry kw ws = Ok g →
  filename ∈ containers w →
  datasets w !! (filename, ds_name) = Some ds →
  open_ds 1 filename ds_name "r" w = (Ok h, w) →
  Array_shape h = Ok found →
  ms ≠ [] →
  kw_delete kw = false →
  ∃ w', prepare_ds B (S fuel) kw w =
          (Err (RuntimeError (ExistingNotCompatible filename ds_name)), w') ∧
        same_storage w w' ∧
        log w' = log w1 ++ ms ∧
        open_ds 1 filename ds_name "r" w' = (Ok h, w').
Proof.
  intros filename ds_name ms Hcheck Hplan Hin Hds Hopen Hshape Hms Hdel.
  pose proof (check_alignment_storage kw w) as Hsame.
  rewrite Hcheck in Hsame. destruct Hsame as (Hc & Hd & Hg & Hj). cbn in Hc, Hd, Hg, Hj.
  assert (endswith filename ".zarr" = true ∨ endswith filename ".n5" = true)
    as Hfmt.
  { unfold plan_geometry, file_format in Hplan. fold filename in Hplan.
    destruct (endswith filename ".h5" || endswith filename ".hdf"); [done|].
    destruct (endswith filename ".zarr"); [by left|].
    destruct (endswith filename ".n5"); [by right|done]. }
  assert (assemble ds (native_order filename ds) = Ok h) as Hasm.
  { rewrite (open_ds_run filename ds_name "r" ds w) in Hopen
      by (done || by right; left).
    congruence. }
  rewrite (prepare_ds_existing B fuel kw w ws w1 g ds h found
             Hcheck Hplan Hin Hds Hasm Hshape).
  fold ms. rewrite bool_decide_eq_false_2, Hdel by done.
  eexists. split; [done|]. split; [by repeat split|]. split; [done|].
  rewrite <- Hasm. apply open_ds_run; try done; [by right; left|cbn; congruence..].
Qed.

Lemma prepare_ds_refuses_incompatible_witness :
  ∃ w',
    prepare_ds example_backend 1 (example_request "data.n5" "uint8")
      provisioned_world =
      (Err (RuntimeError (ExistingNotCompatible "data.n5" "volumes/raw")), w') ∧
    same_storage provisioned_world w' ∧
    log w' = log provisioned_world ++ [InfoDtypesDiffer "float32" "uint8"] ∧
    open_ds 1 "data.n5" "volumes/raw" "r" w' = (Ok provisioned_handle, w').
Proof.
  apply (prepare_ds_refuses_incompatible example_backend 0
           (example_request "data.n5" "uint8") provisioned_world
           (Some [8; 16]) provisioned_world example_geometry
           (fresh_dataset example_backend (example_request "data.n5" "float32")
              example_geometry)
           provisioned_handle [3; 8; 8]).
  - reflexivity.
  - reflexivity.
  - vm_compute. set_solver.
  - reflexivity.
  - reflexivity.
  - reflexivity.
  - vm_compute. discriminate.
  - reflexivity.
Defined.

(** C7 fails as stated: the error raised for a dtype that differs and the
    error raised for a shape and a Roi that differ are one and the same
    value, built from the path alone; the fields that differ are in the log,
    so that no reading of the error can name them. *)
Lemma incompatible_error_omits_fields :
  let r1 := prepare_ds example_backend 1 (example_request "data.n5" "uint8")
              provisioned_world in
  let r2 := prepare_ds example_backend 1 resized_request provisioned_world in
  r1.1 = Err (RuntimeError (ExistingNotCompatible "data.n5" "volumes/raw")) ∧
  r2.1 = Err (RuntimeError (ExistingNotCompatible "data.n5" "volumes/raw")) ∧
  log r1.2 = [InfoDtypesDiffer "float32" "uint8"] ∧
  log r2.2 = [InfoShapesDiffer [3; 8; 8] [3; 16; 8];
              InfoRoisDiffer (mkRoi [0; 8] [16; 32]) (mkRoi [0; 8] [32; 32])] ∧
  ¬ ∃ named : exn → list log_record,
      (∀ e, r1.1 = Err e → named e = log r1.2) ∧
      (∀ e, r2.1 = Err e → named e = log r2.2).
Proof.
  cbv zeta.
  assert ((prepare_ds example_backend 1 (example_request "data.n5" "uint8")
             provisioned_world).1 =
          Err (RuntimeError (ExistingNotCompatible "data.n5" "volumes/raw")))
    as H1 by by vm_compute.
  assert ((prepare_ds example_backend 1 resized_request provisioned_world).1 =
          Err (RuntimeError (ExistingNotCompatible "data.n5" "volumes/raw")))
    as H2 by by vm_compute.
  assert (log (prepare_ds example_backend 1 (example_request "data.n5" "uint8")
                 provisioned_world).2 = [InfoDtypesDiffer "float32" "uint8"])
    as L1 by by vm_compute.
  assert (log (prepare_ds example_backend 1 resized_request provisioned_world).2 =
          [InfoShapesDiffer [3; 8; 8] [3; 16; 8];
           InfoRoisDiffer (mkRoi [0; 8] [16; 32]) (mkRoi [0; 8] [32; 32])])
    as L2 by by vm_compute.
  split; [done|]. split; [done|]. split; [done|]. split; [done|].
  intros (named & Hn1 & Hn2).
  specialize (Hn1 _ H1). specialize (Hn2 _ H2).
  rewrite L1 in Hn1. rewrite L2 in Hn2. congruence.
Qed.

(** * Further properties *)

(** ** The chunk planner *)

(** X1: for a block length of zero or less the loop body never runs,
    [best_k] stays [None] and the final division raises [TypeError]. *)
Theorem get_chunk_size_dim_nonpositive b t :
  b ≤ 0 → get_chunk_size_dim b t = Err TypeError.
Proof.
  intros Hb. unfold get_chunk_size_dim, range.
  by rewrite seqZ_nil by lia.
Qed.

Lemma get_chunk_size_dim_nonpositive_witness :
  get_chunk_size_dim 0 256 = Err TypeError.
Proof. apply get_chunk_size_dim_nonpositive. lia. Defined.

(** X2: a block no longer than the target is kept whole: for
    [1 <= b <= t] the chunk length is [b]. *)
Theorem get_chunk_size_dim_small_block b t :
  1 ≤ b ≤ t → get_chunk_size_dim b t = Ok b.
Proof.
  intros Hb. unfold get_chunk_size_dim.
  destruct (get_chunk_size_dim_best b t ltac:(lia))
    as (k & -> & _ & Hk & Hdiv & _ & Hfirst).
  f_equal. destruct (decide (k = 1)) as [->|Hne]; [apply Z.div_1_r|].
  specialize (Hfirst 1 ltac:(lia) (Z.divide_1_l b)).
  rewrite Z.div_1_r in Hfirst.
  assert (1 ≤ b / k ≤ b).
  { split; [apply Z.div_le_lower_bound; lia|apply Z.div_le_upper_bound; nia]. }
  lia.
Qed.

Lemma get_chunk_size_dim_small_block_witness :
  get_chunk_size_dim 100 256 = Ok 100.
Proof. apply get_chunk_size_dim_small_block. lia. Defined.

(** X3: a positive target that divides the block length is met exactly. *)
Theorem get_chunk_size_dim_exact b t :
  1 ≤ b → 1 ≤ t → (t | b) → get_chunk_size_dim b t = Ok t.
Proof.
  intros Hb Ht [q Hq]. unfold get_chunk_size_dim.
  destruct (get_chunk_size_dim_best b t Hb) as (k & -> & _ & Hk & _ & Hmin & _).
  assert (1 ≤ q) by nia.
  specialize (Hmin q ltac:(nia) ltac:(by exists t; lia)).
  assert (b / q = t) as Hbq by (subst b; rewrite Z.mul_comm, Z.div_mul; lia).
  rewrite Hbq in Hmin. f_equal. lia.
Qed.

Lemma get_chunk_size_dim_exact_witness :
  get_chunk_size_dim 1024 256 = Ok 256.
Proof. apply get_chunk_size_dim_exact; [lia|lia|]. by exists 4. Defined.

Lemma get_chunk_size_dim_divides_bounds b t :
  1 ≤ b → ∃ c, get_chunk_size_dim b t = Ok c ∧ (c | b) ∧ 1 ≤ c ≤ b.
Proof.
  intros Hb. unfold get_chunk_size_dim.
  destruct (get_chunk_size_dim_best b t Hb) as (k & -> & _ & Hk & [q Hq] & _).
  exists (b / k). split; [done|]. split.
  - exists k. subst b. rewrite Z.div_mul by lia. lia.
  - split; [apply Z.div_le_lower_bound; lia|apply Z.div_le_upper_bound; nia].
Qed.

(** X4: for a block shape with positive components [get_chunk_shape]
    returns a chunk shape of the same dimension, each component between 1
    and the block length of its axis and dividing it. *)
Theorem get_chunk_shape_divides (block_shape : list Z) :
  Forall (λ b, 1 ≤ b) block_shape →
  ∃ cs, get_chunk_shape block_shape = Ok cs ∧
        Forall2 (λ c b, (c | b) ∧ 1 ≤ c ≤ b) cs block_shape.
Proof.
  induction 1 as [|b bs Hb _ (cs & Hcs & Hall)].
  - exists []. split; [done|constructor].
  - destruct (get_chunk_size_dim_divides_bounds b 256 Hb) as (c & Hc & Hd & Hr).
    exists (c :: cs). cbn. rewrite Hc. cbn. rewrite Hcs. cbn.
    split; [done|]. by constructor.
Qed.

Lemma get_chunk_shape_divides_witness :
  ∃ cs, get_chunk_shape [4; 1024; 100] = Ok cs ∧
        Forall2 (λ c b, (c | b) ∧ 1 ≤ c ≤ b) cs [4; 1024; 100].
Proof. apply get_chunk_shape_divides. repeat constructor; lia. Defined.

Lemma get_chunk_size_dim_error b t e :
  get_chunk_size_dim b t = Err e → e = TypeError.
Proof.
  unfold get_chunk_size_dim. destruct (best_k _); [done|]. by intros [= <-].
Qed.

(** X5: a block shape with a component of zero or less makes
    [get_chunk_shape] raise [TypeError], whatever the other components
    are. *)
Theorem get_chunk_shape_nonpositive (block_shape : list Z) :
  Exists (λ b, b ≤ 0) block_shape →
  get_chunk_shape block_shape = Err TypeError.
Proof.
  induction 1 as [b bs Hb|b bs _ IH]; cbn.
  - by rewrite get_chunk_size_dim_nonpositive.
  - destruct (get_chunk_size_dim b 256) as [c|e] eqn:Hc; cbn.
    + by rewrite IH.
    + by rewrite (get_chunk_size_dim_error _ _ _ Hc).
Qed.

Lemma get_chunk_shape_nonpositive_witness :
  get_chunk_shape [8; 0; 8] = Err TypeError.
Proof.
  apply get_chunk_shape_nonpositive. apply Exists_cons_tl, Exists_cons_hd. lia.
Defined.

(** ** The metadata resolver *)

Lemma rev_replicate {A} (n : nat) (x : A) : rev (replicate n x) = replicate n x.
Proof.
  induction n as [|n IH]; [done|]. cbn. rewrite IH.
  clear IH. induction n as [|n IH]; [done|]. cbn. by rewrite IH.
Qed.

Lemma aligned_zeros_ones (n : nat) : aligned (replicate n 0) (replicate n 1).
Proof. induction n; constructor; [by exists 0|done]. Qed.

(** X6: an attribute set with none of the recognized keys resolves, under
    either native order, to a voxel size of ones and an offset of zeros, as
    many as the raw shape has axes. *)
Theorem read_voxel_size_offset_defaults (attrs : gmap string val) shape order :
  attrs !! "resolution" = None → attrs !! "scale" = None →
  attrs !! "pixelResolution" = None → attrs !! "transform" = None →
  attrs !! "offset" = None →
  _read_voxel_size_offset attrs shape order =
  Ok (replicate (length shape) 1, replicate (length shape) 0).
Proof.
  intros Hr Hs Hp Ht Ho.
  unfold _read_voxel_size_offset, read_voxel_size, read_offset.
  rewrite Hr, Hs, Hp, Ht, Ho. cbn.
  assert (snap_if_misaligned (replicate (length shape) 0)
            (replicate (length shape) 1) = Ok (replicate (length shape) 0)) as Hsnap.
  { unfold snap_if_misaligned. rewrite aligned_not_misaligned; [done| |].
    - apply Forall_replicate. lia.
    - apply aligned_zeros_ones. }
  destruct (String.eqb order "F"); by rewrite ?rev_replicate, Hsnap.
Qed.

Lemma read_voxel_size_offset_defaults_witness :
  _read_voxel_size_offset ∅ [3; 64; 64] "F" = Ok ([1; 1; 1], [0; 0; 0]).
Proof. by apply (read_voxel_size_offset_defaults ∅ [3; 64; 64] "F"). Defined.

(** X7: [resolution], [scale] and [pixelResolution.dimensions] are
    interchangeable: the same vector given through any one of them, with the
    other attributes unchanged, resolves to the same result under every
    native order. *)
Theorem voxel_size_conventions_agree (attrs : gmap string val) v shape order :
  attrs !! "resolution" = None → attrs !! "scale" = None →
  attrs !! "pixelResolution" = None →
  _read_voxel_size_offset (<["scale" := VVec v]> attrs) shape order =
    _read_voxel_size_offset (<["resolution" := VVec v]> attrs) shape order ∧
  _read_voxel_size_offset
    (<["pixelResolution" := VDict {[ "dimensions" := VVec v ]}]> attrs)
    shape order =
    _read_voxel_size_offset (<["resolution" := VVec v]> attrs) shape order.
Proof.
  intros Hr Hs Hp.
  assert (∀ key x, key ≠ "offset" → key ≠ "transform" → ∀ dims,
            read_offset (<[key := x]> attrs) order dims =
            read_offset attrs order dims) as Hoff.
  { intros key x H1 H2 dims. unfold read_offset.
    by rewrite !lookup_insert_ne by done. }
  unfold _read_voxel_size_offset, read_voxel_size.
  rewrite !lookup_insert_eq.
  rewrite (lookup_insert_ne _ "scale" "resolution") by discriminate.
  rewrite (lookup_insert_ne _ "pixelResolution" "resolution") by discriminate.
  rewrite (lookup_insert_ne _ "pixelResolution" "scale") by discriminate.
  rewrite Hr, Hs. cbn. rewrite lookup_singleton_eq. cbn.
  by rewrite !Hoff by discriminate.
Qed.

Lemma voxel_size_conventions_agree_witness :
  _read_voxel_size_offset
    (<["scale" := VVec [4; 2]]> {[ "offset" := VVec [8; 6] ]}) [8; 8] "F" =
    _read_voxel_size_offset
      (<["resolution" := VVec [4; 2]]> {[ "offset" := VVec [8; 6] ]}) [8; 8] "F" ∧
  _read_voxel_size_offset
    (<["pixelResolution" := VDict {[ "dimensions" := VVec [4; 2] ]}]>
       {[ "offset" := VVec [8; 6] ]}) [8; 8] "F" =
    _read_voxel_size_offset
      (<["resolution" := VVec [4; 2]]> {[ "offset" := VVec [8; 6] ]}) [8; 8] "F".
Proof. by apply voxel_size_conventions_agree. Defined.

Lemma zip_with_mul_aligned (q v : list Z) :
  length q = length v → aligned (zip_with Z.mul q v) v.
Proof.
  revert v. induction q as [|x q IH]; intros [|y v] Hlen; try done.
  - constructor.
  - cbn. constructor; [by exists x|]. apply IH. by injection Hlen.
Qed.

Lemma zip_with_div_mul_fixed (o v : list Z) :
  length o = length v → zip_with (λ o v, o / v * v) o v = o → aligned o v.
Proof.
  revert v. induction o as [|x o IH]; intros [|y v] Hlen Heq; try done.
  - constructor.
  - cbn in Heq. injection Heq as Hx Heq. injection Hlen as Hlen.
    constructor; [by exists (x / y)|by apply IH].
Qed.

Lemma snap_if_misaligned_aligned offset voxel_size s :
  snap_if_misaligned offset voxel_size = Ok s →
  length s = length voxel_size ∧ aligned s voxel_size.
Proof.
  intros Hs. pose proof Hs as Hok.
  apply snap_if_misaligned_ok in Hok as [Hlen Hnz].
  unfold snap_if_misaligned, offset_misaligned in Hs.
  rewrite coord_div_ok in Hs by done. cbn in Hs.
  unfold coord_mul in Hs. rewrite coord_binop_ok in Hs
    by (rewrite length_zip_with; lia).
  cbn in Hs. rewrite zip_with_div_mul in Hs. case_bool_decide as Hfix.
  - unfold snap_offset in Hs. rewrite coord_div_num_two in Hs. cbn in Hs.
    unfold coord_add in Hs. rewrite coord_binop_ok in Hs
      by (by rewrite length_fmap).
    cbn in Hs. rewrite coord_div_ok in Hs
      by (done || rewrite length_zip_with, length_fmap; lia).
    cbn in Hs. unfold coord_mul in Hs. rewrite coord_binop_ok in Hs
      by (rewrite !length_zip_with, length_fmap; lia).
    injection Hs as <-. split.
    + rewrite !length_zip_with, length_fmap. lia.
    + apply zip_with_mul_aligned. rewrite !length_zip_with, length_fmap. lia.
  - injection Hs as <-. split; [done|].
    by apply zip_with_div_mul_fixed.
Qed.

(** X8: whatever the attributes, a pair the resolver returns is well formed:
    the offset has the dimension of the voxel size, no component of the
    voxel size is zero, and every component of the offset is an exact
    multiple of the voxel size of its axis. *)
Theorem read_voxel_size_offset_aligned attrs shape order voxel_size offset :
  _read_voxel_size_offset attrs shape order = Ok (voxel_size, offset) →
  length offset = length voxel_size ∧
  Forall (λ v, v ≠ 0) voxel_size ∧
  aligned offset voxel_size.
Proof.
  intros Hread. pose proof (read_voxel_size_offset_ok _ _ _ _ _ Hread) as Hnz.
  unfold _read_voxel_size_offset in Hread.
  destruct (read_voxel_size attrs order) as [vs|]; [|done]. cbn in Hread.
  destruct (read_offset attrs order (length <$> vs)) as [[off dims]|]; [|done].
  cbn in Hread. destruct (snap_if_misaligned _ _) as [s|] eqn:Hs; [|done].
  cbn in Hread. injection Hread as <- <-.
  apply snap_if_misaligned_aligned in Hs as [Hlen Hal]. by repeat split.
Qed.

Lemma read_voxel_size_offset_aligned_witness :
  length [4; 9] = length [4; 3] ∧ Forall (λ v, v ≠ 0) [4; 3] ∧ aligned [4; 9] [4; 3].
Proof.
  apply (read_voxel_size_offset_aligned
           {[ "resolution" := VVec [4; 3]; "offset" := VVec [3; 8] ]} [8; 8] "C").
  reflexivity.
Defined.

Lemma snap1_nearest o v : 0 < v → 2 * Z.abs (snap1 o v - o) ≤ v.
Proof.
  intros Hv. unfold snap1.
  pose proof (Z.mul_div_le (o + v / 2) v Hv) as Hle.
  pose proof (Z.mul_succ_div_gt (o + v / 2) v Hv) as Hgt.
  pose proof (Z.mul_div_le v 2 ltac:(lia)) as Hh1.
  pose proof (Z.mul_succ_div_gt v 2 ltac:(lia)) as Hh2.
  lia.
Qed.

(** X9: the rounding of lines 79-81 moves every component of the offset to
    a multiple of the voxel size of its axis that is at most half a voxel
    away. *)
Theorem snap_offset_nearest (offset voxel_size : list Z) :
  length offset = length voxel_size →
  Forall (λ v, 0 < v) voxel_size →
  ∃ s, snap_offset offset voxel_size = Ok s ∧
       aligned s voxel_size ∧
       ∀ i x o v, s !! i = Some x → offset !! i = Some o →
                  voxel_size !! i = Some v → 2 * Z.abs (x - o) ≤ v.
Proof.
  intros Hlen Hpos. exists (zip_with snap1 offset voxel_size).
  split; [by apply snap_offset_pointwise|].
  split; [by apply zip_with_snap1_is_aligned|].
  intros i x o v Hx Ho Hv.
  rewrite lookup_zip_with, Ho in Hx. cbn in Hx. rewrite Hv in Hx. cbn in Hx.
  injection Hx as <-. apply snap1_nearest.
  rewrite Forall_forall in Hpos. apply Hpos. by eapply list_elem_of_lookup_2.
Qed.

Lemma snap_offset_nearest_witness :
  ∃ s, snap_offset [5; -7] [4; 4] = Ok s ∧
       aligned s [4; 4] ∧
       ∀ i x o v, s !! i = Some x → [5; -7] !! i = Some o →
                  [4; 4] !! i = Some v → 2 * Z.abs (x - o) ≤ v.
Proof.
  apply (snap_offset_nearest [5; -7] [4; 4]); [reflexivity|].
  repeat constructor.
Defined.

(** X10: when both vectors come from a transform descriptor whose ordering
    tag is absent, ["C"] or ["F"], the native order of the backend has no
    effect: a column-major and a row-major backend resolve the same pair. *)
Theorem transform_ignores_native_order (attrs m : gmap string val) shape :
  attrs !! "resolution" = None → attrs !! "scale" = None →
  attrs !! "pixelResolution" = None → attrs !! "offset" = None →
  attrs !! "transform" = Some (VDict m) →
  (m !! "ordering" = None ∨ m !! "ordering" = Some (VStr "C") ∨
   m !! "ordering" = Some (VStr "F")) →
  _read_voxel_size_offset attrs shape "F" =
  _read_voxel_size_offset attrs shape "C".
Proof.
  intros Hr Hs Hp Ho Ht Htag.
  unfold _read_voxel_size_offset, read_voxel_size, read_offset.
  rewrite Hr, Hs, Hp, Ho, Ht.
  rewrite <- !(read_transform_native_order m _ Htag).
  generalize (read_transform (VDict m) "scale" "F") as rs.
  generalize (read_transform (VDict m) "translate" "F") as rt.
  intros [off|e] [vs|e']; cbn; try reflexivity.
Qed.

Lemma transform_ignores_native_order_witness :
  _read_voxel_size_offset
    {[ "transform" :=
         VDict {[ "scale" := VVec [4; 2]; "translate" := VVec [8; 6];
                  "ordering" := VStr "F" ]} ]} [8; 8] "F" =
  _read_voxel_size_offset
    {[ "transform" :=
         VDict {[ "scale" := VVec [4; 2]; "translate" := VVec [8; 6];
                  "ordering" := VStr "F" ]} ]} [8; 8] "C".
Proof.
  apply (transform_ignores_native_order _
           {[ "scale" := VVec [4; 2]; "translate" := VVec [8; 6];
              "ordering" := VStr "F" ]}); try reflexivity.
  right; right. reflexivity.
Defined.

(** ** The opener *)

(** The recursion bound plays no part on a [.zarr] or [.n5] container. *)
Lemma open_ds_run_fuel fuel filename ds_name mode ds w :
  endswith filename ".zarr" = true ∨ endswith filename ".n5" = true →
  mode = "a" ∨ mode = "r" ∨ mode = "r+" →
  filename ∈ containers w →
  datasets w !! (filename, ds_name) = Some ds →
  open_ds (S fuel) filename ds_name mode w =
  (assemble ds (native_order filename ds), w).
Proof.
  intros Hfmt Hmode Hin Hds.
  rewrite <- (open_ds_run filename ds_name mode ds w Hfmt Hmode Hin Hds).
  cbn [open_ds].
  destruct Hfmt as [Hz|Hn].
  - by rewrite Hz.
  - by rewrite Hn, (endswith_exclusive filename ".n5" ".zarr"),
      (endswith_exclusive filename ".n5" ".zip") by done.
Qed.

(** X11: a [.zip] store is opened for reading only: with any other mode
    [open_ds] fails on its assertion before the store is touched, and with
    mode ["r"] a stored dataset opens like one of a [.zarr] container, with
    the order of the dataset as native order. *)
Theorem open_ds_zip_read_only fuel filename ds_name mode w :
  endswith filename ".zip" = true →
  (mode ≠ "r" →
   open_ds (S fuel) filename ds_name mode w =
   (Err (AssertionError ZipStoreReadOnly), w)) ∧
  (∀ ds, filename ∈ containers w →
         datasets w !! (filename, ds_name) = Some ds →
         open_ds (S fuel) filename ds_name "r" w = (assemble ds (ds_order ds), w)).
Proof.
  intros Hzip. split.
  - intros Hmode. cbn [open_ds]. rewrite Hzip, orb_true_r. cbn.
    rewrite (proj2 (String.eqb_neq mode "r")) by done. done.
  - intros ds Hin Hds. cbn [open_ds]. rewrite Hzip, orb_true_r. cbn.
    unfold mbind, M_bind, lift, log_failure.
    by rewrite (open_dataset_run filename ds_name "r" ds w) by auto.
Qed.

Lemma open_ds_zip_read_only_witness :
  ("a" ≠ "r" →
   open_ds 1 "data.zip" "raw" "a" empty_world =
   (Err (AssertionError ZipStoreReadOnly), empty_world)) ∧
  (∀ ds, "data.zip" ∈ containers empty_world →
         datasets empty_world !! ("data.zip", "raw") = Some ds →
         open_ds 1 "data.zip" "raw" "r" empty_world =
         (assemble ds (ds_order ds), empty_world)).
Proof. apply (open_ds_zip_read_only 0 "data.zip" "raw" "a"). reflexivity. Defined.

(** X12: when the backend fails to open the dataset, [open_ds] raises the
    exception of the backend unchanged; for a [.zarr] container the failure
    is first logged at error level with the container and dataset name, for
    an [.n5] container nothing is logged. *)
Theorem open_ds_failure_propagates fuel filename ds_name mode w e w' :
  open_dataset filename ds_name mode w = (Err e, w') →
  (endswith filename ".zarr" = true →
   open_ds (S fuel) filename ds_name mode w =
   (Err e, log_add [ErrorFailedToOpen filename ds_name] w')) ∧
  (endswith filename ".n5" = true →
   open_ds (S fuel) filename ds_name mode w = (Err e, w')).
Proof.
  intros Hopen. split; intros Hsuffix; cbn [open_ds].
  - rewrite Hsuffix, (endswith_exclusive filename ".zarr" ".zip") by done.
    cbn. unfold mbind, M_bind, lift, assert_, log_failure. by rewrite Hopen.
  - rewrite Hsuffix, (endswith_exclusive filename ".n5" ".zarr"),
      (endswith_exclusive filename ".n5" ".zip") by done.
    cbn. unfold mbind, M_bind. by rewrite Hopen.
Qed.

Lemma open_ds_failure_propagates_witness :
  (endswith "data.zarr" ".zarr" = true →
   open_ds 1 "data.zarr" "raw" "r" empty_world =
   (Err PathNotFoundError, log_add [ErrorFailedToOpen "data.zarr" "raw"] empty_world)) ∧
  (endswith "data.zarr" ".n5" = true →
   open_ds 1 "data.zarr" "raw" "r" empty_world = (Err PathNotFoundError, empty_world)).
Proof.
  apply (open_ds_failure_propagates 0 "data.zarr" "raw" "r" empty_world).
  reflexivity.
Defined.

(** X13: a virtual descriptor over a dataset stored in a [.zarr] or [.n5]
    container opens as a handle on the data, voxel size and chunk shape of
    that dataset, whose Roi is exactly the offset and size of the descriptor
    and whose origin-translation base is the begin of the Roi of the
    dataset; nothing is changed in the world. *)
Theorem open_ds_descriptor fuel filename ds_name mode spec ds parent w :
  endswith filename ".json" = true →
  descriptors w !! filename = Some spec →
  endswith (spec_container spec) ".zarr" = true ∨
    endswith (spec_container spec) ".n5" = true →
  mode = "a" ∨ mode = "r" ∨ mode = "r+" →
  spec_container spec ∈ containers w →
  datasets w !! (spec_container spec, ds_name) = Some ds →
  assemble ds (native_order (spec_container spec) ds) = Ok parent →
  open_ds (S (S fuel)) filename ds_name mode w =
  (Ok (derived_handle spec parent), w).
Proof.
  intros Hjson Hspec Hfmt Hmode Hin Hds Hasm.
  assert (open_ds (S fuel) (spec_container spec) ds_name mode w = (Ok parent, w))
    as Hparent.
  { rewrite <- Hasm. by apply open_ds_run_fuel. }
  remember (S fuel) as n. cbn [open_ds].
  rewrite (endswith_exclusive filename ".json" ".zarr"),
    (endswith_exclusive filename ".json" ".zip"),
    (endswith_exclusive filename ".json" ".n5"),
    (endswith_exclusive filename ".json" ".h5"),
    (endswith_exclusive filename ".json" ".hdf"), Hjson by done.
  cbn. unfold mbind at 1, M_bind at 1, read_descriptor. rewrite Hspec.
  by rewrite (bind_ok _ _ _ _ _ Hparent).
Qed.

Lemma open_ds_descriptor_witness :
  let w := mkWorld (containers provisioned_world) (datasets provisioned_world)
             (directories provisioned_world)
             {[ "crop.json" := mkDescriptor "data.n5" [4; 16] [8; 8] ]} [] in
  open_ds 2 "crop.json" "volumes/raw" "r" w =
  (Ok (derived_handle (mkDescriptor "data.n5" [4; 16] [8; 8]) provisioned_handle), w).
Proof.
  cbv zeta.
  apply (open_ds_descriptor 0 "crop.json" "volumes/raw" "r"
           (mkDescriptor "data.n5" [4; 16] [8; 8])
           (fresh_dataset example_backend (example_request "data.n5" "float32")
              example_geometry)
           provisioned_handle).
  - reflexivity.
  - reflexivity.
  - right. reflexivity.
  - right; left. reflexivity.
  - vm_compute. set_solver.
  - reflexivity.
  - reflexivity.
Defined.

(** X14: a descriptor that names itself as its container never opens: the
    opener descends into it again and again until the stack is exhausted,
    and the world is unchanged. *)
Theorem open_ds_descriptor_cycle fuel filename ds_name mode spec w :
  endswith filename ".json" = true →
  descriptors w !! filename = Some spec →
  spec_container spec = filename →
  open_ds fuel filename ds_name mode w = (Err RecursionError, w).
Proof.
  intros Hjson Hspec Hself. induction fuel as [|fuel IH]; [done|].
  cbn [open_ds].
  rewrite (endswith_exclusive filename ".json" ".zarr"),
    (endswith_exclusive filename ".json" ".zip"),
    (endswith_exclusive filename ".json" ".n5"),
    (endswith_exclusive filename ".json" ".h5"),
    (endswith_exclusive filename ".json" ".hdf"), Hjson by done.
  cbn. unfold mbind at 1, M_bind at 1, read_descriptor. rewrite Hspec, Hself.
  by rewrite (bind_err _ _ _ _ _ IH).
Qed.

Lemma open_ds_descriptor_cycle_witness :
  open_ds 5 "loop.json" "raw" "r"
    (mkWorld ∅ ∅ ∅ {[ "loop.json" := mkDescriptor "loop.json" [0] [1] ]} []) =
  (Err RecursionError,
   mkWorld ∅ ∅ ∅ {[ "loop.json" := mkDescriptor "loop.json" [0] [1] ]} []).
Proof.
  apply (open_ds_descriptor_cycle 5 "loop.json" "raw" "r"
           (mkDescriptor "loop.json" [0] [1])); reflexivity.
Defined.

(** ** The provisioner *)

Lemma check_alignment_aligned kw w :
  Forall (λ v, 0 < v) (kw_voxel_size kw) →
  aligned (roi_shape (kw_total_roi kw)) (kw_voxel_size kw) →
  aligned (roi_begin (kw_total_roi kw)) (kw_voxel_size kw) →
  (∀ ws, effective_write_size kw = Some ws → aligned ws (kw_voxel_size kw)) →
  ∃ w', check_alignment kw w = (Ok (effective_write_size kw), w') ∧
        same_storage w w'.
Proof.
  intros Hpos Hsh Hoff Hws.
  unfold check_alignment, mbind, M_bind, lift, mret, M_ret, logger,
    effective_write_size in *.
  rewrite (is_multiple_of_aligned _ _ Hpos Hsh). cbn.
  rewrite (is_multiple_of_aligned _ _ Hpos Hoff). cbn.
  destruct (kw_write_roi kw) as [r|], (kw_write_size kw) as [ws|]; cbn.
  - rewrite (is_multiple_of_aligned _ _ Hpos (Hws ws eq_refl)). cbn. by eexists.
  - rewrite (is_multiple_of_aligned _ _ Hpos (Hws _ eq_refl)). cbn. by eexists.
  - rewrite (is_multiple_of_aligned _ _ Hpos (Hws ws eq_refl)). cbn. by eexists.
  - by eexists.
Qed.

Lemma prepare_ds_plan_error B fuel kw w ws w1 e :
  check_alignment kw w = (Ok ws, w1) →
  plan_geometry kw ws = Err e →
  prepare_ds B (S fuel) kw w = (Err e, w1) ∧ same_storage w w1.
Proof.
  intros Hcheck Hplan. split.
  - cbn [prepare_ds]. rewrite (bind_ok _ _ _ _ _ Hcheck).
    unfold mbind, M_bind, lift. by rewrite Hplan.
  - pose proof (check_alignment_storage kw w) as H. by rewrite Hcheck in H.
Qed.

(** X15: a container path that ends in [.h5] or [.hdf], or in neither
    [.zarr] nor [.n5], is refused with a [RuntimeError] once the alignment
    assertions have passed and before anything is created: the containers
    and datasets are what they were. *)
Theorem prepare_ds_rejects_format B fuel kw w ws w1 :
  let filename := kw_filename kw in
  check_alignment kw w = (Ok ws, w1) →
  endswith filename ".h5" || endswith filename ".hdf" ||
    negb (endswith filename ".zarr" || endswith filename ".n5") = true →
  prepare_ds B (S fuel) kw w =
    (Err (RuntimeError
            (if endswith filename ".h5" || endswith filename ".hdf"
             then HDF5NotSupported else UnknownFileFormat filename)), w1) ∧
  same_storage w w1.
Proof.
  intros filename Hcheck Hbad.
  apply (prepare_ds_plan_error B fuel kw w ws w1); [done|].
  unfold plan_geometry, file_format. fold filename.
  destruct (endswith filename ".h5" || endswith filename ".hdf"); [done|].
  cbn in Hbad. apply negb_true_iff, orb_false_iff in Hbad as [-> ->]. done.
Qed.

Lemma prepare_ds_rejects_format_witness :
  prepare_ds example_backend 1 (example_request "data.hdf" "float32") empty_world =
    (Err (RuntimeError
            (if endswith "data.hdf" ".h5" || endswith "data.hdf" ".hdf"
             then HDF5NotSupported else UnknownFileFormat "data.hdf")), empty_world) ∧
  same_storage empty_world empty_world.
Proof.
  apply (prepare_ds_rejects_format example_backend 0
           (example_request "data.hdf" "float32") empty_world (Some [8; 16]));
    reflexivity.
Defined.

Lemma block_shape_nonpositive (ws vs : list Z) :
  Forall (λ v, 0 < v) vs → aligned ws vs → Exists (λ x, x ≤ 0) ws →
  Exists (λ b, b ≤ 0) (zip_with Z.div ws vs).
Proof.
  intros Hvs Hal. induction Hal as [|x v ws vs [m ->] _ IH]; intros Hex.
  - inversion Hex.
  - inversion Hvs; subst. cbn. rewrite Z.div_mul by lia.
    inversion Hex as [? ? Hx|? ? Hx]; subst.
    + apply Exists_cons_hd. nia.
    + apply Exists_cons_tl. by apply IH.
Qed.

(** X16: when the chunk shape is planned (no [force_exact_write_size]), a
    write size with a component of zero or less makes [prepare_ds] raise
    [TypeError] although every alignment assertion passes; this happens
    before anything is created. *)
Theorem prepare_ds_nonpositive_write_size B fuel kw w ws :
  Forall (λ v, 0 < v) (kw_voxel_size kw) →
  aligned (roi_shape (kw_total_roi kw)) (kw_voxel_size kw) →
  aligned (roi_begin (kw_total_roi kw)) (kw_voxel_size kw) →
  effective_write_size kw = Some ws →
  aligned ws (kw_voxel_size kw) →
  Exists (λ x, x ≤ 0) ws →
  kw_force_exact_write_size kw = false →
  endswith (kw_filename kw) ".zarr" = true ∨
    endswith (kw_filename kw) ".n5" = true →
  ∃ w1, prepare_ds B (S fuel) kw w = (Err TypeError, w1) ∧ same_storage w w1.
Proof.
  intros Hpos Hsh Hoff Hws Hal Hex Hforce Hfmt.
  destruct (check_alignment_aligned kw w Hpos Hsh Hoff) as (w1 & Hcheck & _).
  { intros ws' Hws'. congruence. }
  exists w1.
  apply (prepare_ds_plan_error B fuel kw w (effective_write_size kw) w1);
    [done|].
  unfold plan_geometry.
  assert (∃ f, file_format (kw_filename kw) = Ok f) as [f ->].
  { destruct Hfmt as [H|H]; eexists;
      [by apply file_format_zarr|by apply file_format_n5]. }
  cbn. rewrite Hws. unfold plan_chunk_shape.
  rewrite (coord_div_ok ws)
    by (by try apply Forall_pos_nonzero; try eapply Forall2_length).
  cbn. rewrite Hforce. cbn [negb].
  by rewrite (get_chunk_shape_nonpositive _
                (block_shape_nonpositive _ _ Hpos Hal Hex)).
Qed.

Lemma prepare_ds_nonpositive_write_size_witness :
  ∃ w1,
    prepare_ds example_backend 1
      (mkArgs "data.zarr" "raw" (mkRoi [0; 0] [16; 32]) [2; 4] "uint8" None
         (Some [8; 0]) None None false false) empty_world = (Err TypeError, w1) ∧
    same_storage empty_world w1.
Proof.
  apply (prepare_ds_nonpositive_write_size example_backend 0
           (mkArgs "data.zarr" "raw" (mkRoi [0; 0] [16; 32]) [2; 4] "uint8" None
              (Some [8; 0]) None None false false) empty_world [8; 0]).
  - repeat constructor.
  - repeat constructor; [by exists 8|by exists 8].
  - repeat constructor; [by exists 0|by exists 0].
  - reflexivity.
  - repeat constructor; [by exists 4|by exists 0].
  - apply Exists_cons_tl, Exists_cons_hd. lia.
  - reflexivity.
  - left. reflexivity.
Defined.

Lemma lstrip_slash_idempotent s : lstrip_slash (lstrip_slash s) = lstrip_slash s.
Proof.
  induction s as [|c s IH]; [done|]. cbn.
  destruct (Ascii.eqb c "/") eqn:Hc; [done|]. cbn. by rewrite Hc.
Qed.

(** X17: leading slashes of the dataset name are ignored: a request and the
    same request with the slashes stripped are served alike, whatever the
    world. *)
Theorem prepare_ds_strips_slashes B fuel kw :
  prepare_ds B fuel (with_ds_name kw (lstrip_slash (kw_ds_name kw))) =
  prepare_ds B fuel kw.
Proof.
  destruct fuel as [|fuel]; [done|]. cbn [prepare_ds].
  unfold with_ds_name. cbn [kw_filename kw_ds_name kw_total_roi kw_voxel_size
    kw_dtype kw_num_channels kw_compressor kw_delete].
  rewrite lstrip_slash_idempotent. reflexivity.
Qed.

(** X18: what [prepare_ds] writes, [open_ds] reads back: after a fresh
    creation for a well-formed request (a proper dataset name whose subpath
    is not a directory), opening the same path returns a handle on the
    dataset just created whose Roi and voxel size are those of the request,
    for a [.zarr] and for an [.n5] container alike (where the attributes are
    stored reversed), with the chunk shape of the backend. *)
Theorem prepare_then_open B fuel fuel' kw w :
  let filename := kw_filename kw in
  let ds_name := lstrip_slash (kw_ds_name kw) in
  request_ok B kw →
  subpath_isdir filename ds_name w = false →
  ∃ a w',
    prepare_ds B (S fuel) kw w = (Ok a, w') ∧
    open_ds (S fuel') filename ds_name "r" w' =
      (Ok (mkArray (array_data a) (kw_total_roi kw) (kw_voxel_size kw) None
             (ds_chunks (array_data a))), w') ∧
    ds_dtype (array_data a) = kw_dtype kw ∧
    ds_shape (array_data a) =
      prepend_channels (kw_num_channels kw)
        (zip_with Z.div (roi_shape (kw_total_roi kw)) (kw_voxel_size kw)).
Proof.
  intros filename ds_name Hok Hnone.
  destruct (prepare_ds_fresh B fuel kw w Hok Hnone)
    as (g & w' & _ & Hg & Hrun & Hin & Hds & _).
  eexists _, w'. split; [exact Hrun|]. cbn [array_data].
  split; [|split; [done|cbn; by destruct Hg as (_ & -> & _)]].
  rewrite <- (assemble_fresh B kw g Hok Hg).
  apply open_ds_run_fuel; try done; [apply (ok_format _ _ Hok)|by right; left].
Qed.

Lemma prepare_then_open_witness :
  ∃ a w',
    prepare_ds example_backend 1 (example_request "data.n5" "float32")
      empty_world = (Ok a, w') ∧
    open_ds 1 "data.n5" "volumes/raw" "r" w' =
      (Ok (mkArray (array_data a) (mkRoi [0; 8] [16; 32]) [2; 4] None
             (ds_chunks (array_data a))), w') ∧
    ds_dtype (array_data a) = "float32" ∧
    ds_shape (array_data a) = [3; 8; 8].
Proof.
  apply (prepare_then_open example_backend 0 0
           (example_request "data.n5" "float32") empty_world).
  - exact example_request_ok.
  - reflexivity.
Defined.

Lemma resolve_compressor_idempotent c :
  resolve_compressor (resolve_compressor c) = resolve_compressor c.
Proof.
  unfold resolve_compressor. destruct (decide (c = _)) as [->|Hne]; [done|].
  by rewrite decide_False.
Qed.

Lemma retry_request_ok B kw : request_ok B kw → request_ok B (retry_request kw).
Proof.
  intros [Hpos Hdim Hsh Hoff Hfmt Hws Hcodec Hname]. split; cbn; try done.
  - intros c. rewrite resolve_compressor_idempotent. apply Hcodec.
  - by rewrite lstrip_slash_idempotent.
Qed.

(** X19: with [delete] set, an existing dataset with a proper name that
    fails a compatibility check is removed and created anew for a
    well-formed request: the call returns a handle on a new
    dataset with the requested shape and dtype, and opening the path
    afterwards gives the requested Roi and voxel size.  The call that
    creates it is made with the arguments of [retry_request]: the chunk
    shape is planned even if [force_exact_write_size] was set. *)
Theorem prepare_ds_recreates B fuel kw w g ds h found :
  let filename := kw_filename kw in
  let ds_name := lstrip_slash (kw_ds_name kw) in
  request_ok B kw →
  kw_delete kw = true →
  plan_geometry kw (effective_write_size kw) = Ok g →
  filename ∈ containers w →
  datasets w !! (filename, ds_name) = Some ds →
  assemble ds (native_order filename ds) = Ok h →
  Array_shape h = Ok found →
  mismatches h found (g_shape g) (kw_total_roi kw) (kw_voxel_size kw)
    (effective_write_size kw) (g_chunk_shape g) (kw_dtype kw) ≠ [] →
  ∃ a w' g',
    prepare_ds B (S (S fuel)) kw w = (Ok a, w') ∧
    plan_geometry (retry_request kw) (effective_write_size kw) = Ok g' ∧
    array_data a = fresh_dataset B (retry_request kw) g' ∧
    datasets w' !! (filename, ds_name) = Some (array_data a) ∧
    ds_dtype (array_data a) = kw_dtype kw ∧
    ds_shape (array_data a) =
      prepend_channels (kw_num_channels kw)
        (zip_with Z.div (roi_shape (kw_total_roi kw)) (kw_voxel_size kw)) ∧
    open_ds 1 filename ds_name "r" w' =
      (Ok (mkArray (array_data a) (kw_total_roi kw) (kw_voxel_size kw) None
             (ds_chunks (array_data a))), w').
Proof.
  intros filename ds_name Hok Hdel Hplan Hin Hds Hasm Hshape Hms.
  destruct (check_alignment_ok B kw w Hok) as (w1 & Hcheck & _ & _).
  rewrite (prepare_ds_existing B (S fuel) kw w _ w1 g ds h found
             Hcheck Hplan Hin Hds Hasm Hshape).
  rewrite bool_decide_eq_false_2, Hdel by done.
  change (mkArgs (kw_filename kw) (lstrip_slash (kw_ds_name kw)) (kw_total_roi kw)
            (kw_voxel_size kw) (kw_dtype kw) None (effective_write_size kw)
            (kw_num_channels kw) (resolve_compressor (kw_compressor kw))
            false false) with (retry_request kw).
  pose proof (retry_request_ok B kw Hok) as Hok'.
  match goal with |- context [prepare_ds B (S fuel) (retry_request kw) ?w0] =>
    destruct (prepare_ds_fresh B fuel (retry_request kw) w0 Hok')
      as (g' & w' & Hplan' & Hg' & Hrun & Hin' & Hds' & _)
  end.
  { cbn. rewrite lstrip_slash_idempotent.
    apply remove_tree_fresh, (ok_name _ _ Hok). }
  cbn [retry_request kw_filename kw_ds_name kw_total_roi kw_voxel_size
         kw_num_channels kw_dtype] in Hrun, Hin', Hds'.
  rewrite lstrip_slash_idempotent in Hds'.
  assert (effective_write_size (retry_request kw) = effective_write_size kw)
    as Heff by reflexivity.
  rewrite Heff in Hplan'.
  eexists _, w', g'. split; [exact Hrun|]. cbn [array_data].
  split; [done|]. split; [done|]. split; [exact Hds'|].
  split; [done|]. split; [cbn; by destruct Hg' as (_ & -> & _)|].
  pose proof (assemble_fresh B (retry_request kw) g' Hok' Hg') as Hasm'.
  cbn [retry_request kw_filename kw_total_roi kw_voxel_size] in Hasm'.
  rewrite <- Hasm'.
  apply open_ds_run; try done; [apply (ok_format _ _ Hok)|by right; left].
Qed.

Lemma resized_delete_request_ok : request_ok example_backend resized_delete_request.
Proof.
  split; cbn.
  - repeat constructor.
  - done.
  - repeat constructor; [by exists 16|by exists 8].
  - repeat constructor; [by exists 0|by exists 2].
  - by right.
  - intros ws [= <-]. split.
    + repeat constructor; [by exists 4|by exists 4].
    + repeat constructor.
  - done.
  - reflexivity.
Defined.

Lemma prepare_ds_recreates_witness :
  ∃ a w' g',
    prepare_ds example_backend 2 resized_delete_request provisioned_world =
      (Ok a, w') ∧
    plan_geometry (retry_request resized_delete_request) (Some [8; 16]) = Ok g' ∧
    array_data a =
      fresh_dataset example_backend (retry_request resized_delete_request) g' ∧
    datasets w' !! ("data.n5", "volumes/raw") = Some (array_data a) ∧
    ds_dtype (array_data a) = "float32" ∧
    ds_shape (array_data a) = [3; 16; 8] ∧
    open_ds 1 "data.n5" "volumes/raw" "r" w' =
      (Ok (mkArray (array_data a) (mkRoi [0; 8] [32; 32]) [2; 4] None
             (ds_chunks (array_data a))), w').
Proof.
  apply (prepare_ds_recreates example_backend 0 resized_delete_request
           provisioned_world
           (mkGeometry "n5" [3; 16; 8] (Some [3; 4; 4]) (Some [1; 2; 4]))
           (fresh_dataset example_backend (example_request "data.n5" "float32")
              example_geometry)
           provisioned_handle [3; 8; 8]).
  - exact resized_delete_request_ok.
  - reflexivity.
  - reflexivity.
  - vm_compute. set_solver.
  - reflexivity.
  - reflexivity.
  - reflexivity.
  - vm_compute. discriminate.
Defined.

(** X20: when the codec is not known to the backend, a fresh creation (a
    request that passes the assertions and the planning, with a proper
    dataset name whose subpath is not a directory) fails with the error of
    the codec lookup after the container has been made but before the
    dataset is: the container exists afterwards, the dataset does not, and a
    container that was there before is left as it was. *)
Theorem prepare_ds_unknown_codec B fuel kw w ws w1 g c :
  let filename := kw_filename kw in
  let ds_name := lstrip_slash (kw_ds_name kw) in
  check_alignment kw w = (Ok ws, w1) →
  plan_geometry kw ws = Ok g →
  proper_name ds_name = true →
  subpath_isdir filename ds_name w = false →
  resolve_compressor (kw_compressor kw) = Some c →
  codec_available B c = false →
  ∃ w', prepare_ds B (S fuel) kw w = (Err ValueError, w') ∧
        filename ∈ containers w' ∧
        subpath_isdir filename ds_name w' = false ∧
        datasets w' !! (filename, ds_name) = None ∧
        (filename ∈ containers w → same_storage w w').
Proof.
  intros filename ds_name Hcheck Hplan Hname Hfresh Hc Hcodec.
  pose proof (check_alignment_storage kw w) as Hsame.
  rewrite Hcheck in Hsame. pose proof Hsame as (Hc1 & Hd1 & Hg1 & Hj1).
  cbn in Hc1, Hd1, Hg1, Hj1.
  destruct (ensure_container_run filename w1)
    as (w2 & Hens & Hin2 & Hj2 & _ & Hsame2 & Hd2).
  assert (subpath_isdir filename ds_name w2 = false) as Hfresh2.
  { apply (ensure_container_fresh filename ds_name w1 w2 Hname); [|done].
    by rewrite (subpath_isdir_same_storage _ _ w w1). }
  exists w2. split; [|split; [done|split; [done|split]]].
  - cbn [prepare_ds].
    rewrite (bind_ok _ _ _ _ _ Hcheck).
    rewrite (bind_ok _ _ _ _ _ (lift_ok _ _ w1 Hplan)).
    fold filename ds_name.
    rewrite (bind_ok _ _ _ _ _ Hens).
    unfold isdir_join at 1. unfold mbind at 1, M_bind at 1.
    rewrite Hfresh2. cbn [negb].
    unfold create_new. rewrite Hc. unfold get_codec. rewrite Hcodec. done.
  - by apply subpath_isdir_not_stored.
  - intros Hin. rewrite Hsame2 by (by rewrite Hc1). by repeat split.
Qed.

Lemma prepare_ds_unknown_codec_witness :
  ∃ w', prepare_ds (mkBackend (λ shape, shape) (λ _, false)) 1
          (example_request "data.zarr" "float32") empty_world =
          (Err ValueError, w') ∧
        "data.zarr" ∈ containers w' ∧
        subpath_isdir "data.zarr" "volumes/raw" w' = false ∧
        datasets w' !! ("data.zarr", "volumes/raw") = None ∧
        ("data.zarr" ∈ containers empty_world → same_storage empty_world w').
Proof.
  apply (prepare_ds_unknown_codec (mkBackend (λ shape, shape) (λ _, false)) 0
           (example_request "data.zarr" "float32") empty_world (Some [8; 16])
           empty_world
           (mkGeometry "zarr" [3; 8; 8] (Some [3; 4; 4]) (Some [1; 2; 4]))
           (CompressorSpec "gzip" 5)); reflexivity.
Defined.

Lemma record_if_nil b r : record_if b r = [] ↔ b = false.
Proof. by destruct b. Qed.

Lemma bool_decide_ne_false `{EqDecision A} (x y : A) :
  bool_decide (x ≠ y) = false ↔ x = y.
Proof.
  rewrite bool_decide_eq_false. split; [|by intros -> Hne].
  intros Hnn. by destruct (decide (x = y)) as [|Hne]; [|destruct (Hnn Hne)].
Qed.

Lemma mismatches_nil ds found shape total_roi voxel_size write_size chunk_shape
    dtype :
  mismatches ds found shape total_roi voxel_size write_size chunk_shape dtype = [] ↔
  found = shape ∧ array_roi ds = total_roi ∧
  array_voxel_size ds = voxel_size ∧
  (write_size = None ∨ ds_chunks (array_data ds) = chunk_shape) ∧
  dtype = Array_dtype ds.
Proof.
  unfold mismatches.
  rewrite !app_nil, !record_if_nil, andb_false_iff, !bool_decide_ne_false,
    bool_decide_eq_false.
  assert (¬ is_Some write_size ↔ write_size = None) as ->; [|done].
  destruct write_size as [ws|]; split; try done.
  intros Hn. destruct Hn. by eexists.
Qed.

(** X21: the comparison of an existing dataset with a request changes
    nothing stored and succeeds exactly when the shape, the Roi, the voxel
    size and the dtype agree and, if a write size is in force, the chunk
    shape of the backend is the one planned; the compressor is not compared,
    nor is the chunk shape when no write size is given. *)
Theorem compatible_with_complete ds found shape total_roi voxel_size write_size
    chunk_shape dtype w :
  Array_shape ds = Ok found →
  ∃ compatible w',
    compatible_with ds shape total_roi voxel_size write_size chunk_shape dtype w =
      (Ok compatible, w') ∧
    same_storage w w' ∧
    (compatible = true ↔
       found = shape ∧ array_roi ds = total_roi ∧
       array_voxel_size ds = voxel_size ∧
       (write_size = None ∨ ds_chunks (array_data ds) = chunk_shape) ∧
       dtype = Array_dtype ds).
Proof.
  intros Hshape.
  rewrite (compatible_with_run ds found shape total_roi voxel_size write_size
             chunk_shape dtype w Hshape).
  eexists _, _. split; [done|]. split; [done|].
  rewrite bool_decide_eq_true. apply mismatches_nil.
Qed.

Lemma compatible_with_complete_witness :
  ∃ compatible w',
    compatible_with provisioned_handle [3; 8; 8] (mkRoi [0; 8] [16; 32]) [2; 4]
      None None "float32" provisioned_world = (Ok compatible, w') ∧
    same_storage provisioned_world w' ∧
    (compatible = true ↔
       [3; 8; 8] = [3; 8; 8] ∧
       array_roi provisioned_handle = mkRoi [0; 8] [16; 32] ∧
       array_voxel_size provisioned_handle = [2; 4] ∧
       (@None (list Z) = None ∨
        ds_chunks (array_data provisioned_handle) = None) ∧
       "float32" = Array_dtype provisioned_handle).
Proof.
  apply (compatible_with_complete provisioned_handle [3; 8; 8]). reflexivity.
Defined.

(** X22: an existing dataset that passes every check is reused, whoever
    created it and whatever [delete] says: the call returns the handle the
    dataset opens as, with the chunk shape of the backend, logs that it
    reuses the dataset, and the containers and datasets are unchanged. *)
Theorem prepare_ds_reuses_compatible B fuel kw w ws w1 g ds h found :
  let filename := kw_filename kw in
  let ds_name := lstrip_slash (kw_ds_name kw) in
  check_alignment kw w = (Ok ws, w1) →
  plan_geometry kw ws = Ok g →
  filename ∈ containers w →
  datasets w !! (filename, ds_name) = Some ds →
  open_ds 1 filename ds_name "r" w = (Ok h, w) →
  Array_shape h = Ok found →
  mismatches h found (g_shape g) (kw_total_roi kw) (kw_voxel_size kw)
    ws (g_chunk_shape g) (kw_dtype kw) = [] →
  ∃ w', prepare_ds B (S fuel) kw w = (Ok h, w') ∧
        same_storage w w' ∧
        log w' = log w1 ++ [InfoReusing] ∧
        array_chunk_shape h = ds_chunks ds.
Proof.
  intros filename ds_name Hcheck Hplan Hin Hds Hopen Hshape Hms.
  pose proof (check_alignment_storage kw w) as Hsame.
  rewrite Hcheck in Hsame. destruct Hsame as (Hc & Hd & Hg & Hj). cbn in Hc, Hd, Hg, Hj.
  assert (endswith filename ".zarr" = true ∨ endswith filename ".n5" = true)
    as Hfmt.
  { unfold plan_geometry, file_format in Hplan. fold filename in Hplan.
    destruct (endswith filename ".h5" || endswith filename ".hdf"); [done|].
    destruct (endswith filename ".zarr"); [by left|].
    destruct (endswith filename ".n5"); [by right|done]. }
  assert (assemble ds (native_order filename ds) = Ok h) as Hasm.
  { rewrite (open_ds_run filename ds_name "r" ds w) in Hopen
      by (done || by right; left).
    congruence. }
  rewrite (prepare_ds_existing B fuel kw w ws w1 g ds h found
             Hcheck Hplan Hin Hds Hasm Hshape).
  rewrite Hms. cbn. eexists. split; [done|]. split; [by repeat split|].
  split; [done|].
  unfold assemble in Hasm.
  destruct (_read_voxel_size_offset _ _ _) as [[vs off]|]; [|done].
  cbn in Hasm. destruct (coord_mul _ _); [|done]. cbn in Hasm.
  by injection Hasm as <-.
Qed.

Lemma prepare_ds_reuses_compatible_witness :
  ∃ w', prepare_ds example_backend 1 (example_request "data.n5" "float32")
          provisioned_world = (Ok provisioned_handle, w') ∧
        same_storage provisioned_world w' ∧
        log w' = log provisioned_world ++ [InfoReusing] ∧
        array_chunk_shape provisioned_handle =
          ds_chunks (fresh_dataset example_backend
                       (example_request "data.n5" "float32") example_geometry).
Proof.
  apply (prepare_ds_reuses_compatible example_backend 0
           (example_request "data.n5" "float32") provisioned_world
           (Some [8; 16]) provisioned_world example_geometry
           (fresh_dataset example_backend (example_request "data.n5" "float32")
              example_geometry)
           provisioned_handle [3; 8; 8]).
  - reflexivity.
  - reflexivity.
  - vm_compute. set_solver.
  - reflexivity.
  - reflexivity.
  - reflexivity.
  - reflexivity.
Defined.

(** On a [.zarr] or [.n5] container that holds no dataset under the name,
    the opener raises and stores nothing. *)
Lemma open_ds_missing filename ds_name w :
  endswith filename ".zarr" = true ∨ endswith filename ".n5" = true →
  filename ∈ containers w →
  datasets w !! (filename, ds_name) = None →
  ∃ w', open_ds 1 filename ds_name "a" w = (Err (KeyError ds_name), w') ∧
        same_storage w w'.
Proof.
  intros Hfmt Hin Hnone.
  assert (open_dataset filename ds_name "a" w = (Err (KeyError ds_name), w))
    as Hopen.
  { unfold open_dataset, mbind, M_bind, backend_open, backend_getitem. cbn.
    rewrite set_containers_present by done. by rewrite Hnone. }
  cbn [open_ds]. destruct Hfmt as [Hz|Hn].
  - rewrite Hz, (endswith_exclusive filename ".zarr" ".zip") by done.
    cbn. unfold mbind, M_bind, lift, assert_, log_failure. rewrite Hopen.
    eexists. split; [done|]. by repeat split.
  - rewrite Hn, (endswith_exclusive filename ".n5" ".zarr"),
      (endswith_exclusive filename ".n5" ".zip") by done.
    cbn. unfold mbind, M_bind. rewrite Hopen.
    eexists. split; [done|]. by repeat split.
Qed.

(** X23: a subpath that is a directory but holds no dataset (the container
    itself, for a name without components such as the empty name, or, for a
    proper name, a group other datasets lie in) is neither reused nor
    created: a request that passes the assertions and the planning raises,
    and the containers, datasets and directories are what they were. *)
Theorem prepare_ds_directory_without_dataset B fuel kw w ws w1 g :
  let filename := kw_filename kw in
  let ds_name := lstrip_slash (kw_ds_name kw) in
  check_alignment kw w = (Ok ws, w1) →
  plan_geometry kw ws = Ok g →
  filename ∈ containers w →
  proper_name ds_name = true ∨ path_components ds_name = [] →
  subpath_isdir filename ds_name w = true →
  datasets w !! (filename, ds_name) = None →
  ∃ e w', prepare_ds B (S fuel) kw w = (Err e, w') ∧ same_storage w w'.
Proof.
  intros filename ds_name Hcheck Hplan Hin _ Hdir Hnone.
  pose proof (check_alignment_storage kw w) as Hsame.
  rewrite Hcheck in Hsame. pose proof Hsame as (Hc & Hd & Hg & Hj).
  cbn in Hc, Hd, Hg, Hj.
  assert (endswith filename ".zarr" = true ∨ endswith filename ".n5" = true)
    as Hfmt.
  { unfold plan_geometry, file_format in Hplan. fold filename in Hplan.
    destruct (endswith filename ".h5" || endswith filename ".hdf"); [done|].
    destruct (endswith filename ".zarr"); [by left|].
    destruct (endswith filename ".n5"); [by right|done]. }
  destruct (ensure_container_run filename w1) as (w2 & Hens & _ & _ & _ & Hw2 & _).
  rewrite Hw2 in Hens by (by rewrite Hc).
  destruct (open_ds_missing filename ds_name w1 Hfmt) as (w' & Hopen & Hsame');
    [by rewrite Hc|by rewrite Hd|].
  exists (KeyError ds_name), w'. split.
  - cbn [prepare_ds].
    rewrite (bind_ok _ _ _ _ _ Hcheck).
    rewrite (bind_ok _ _ _ _ _ (lift_ok _ _ w1 Hplan)).
    fold filename ds_name.
    rewrite (bind_ok _ _ _ _ _ Hens).
    unfold isdir_join at 1. unfold mbind at 1, M_bind at 1.
    rewrite (subpath_isdir_same_storage _ _ w w1 Hsame), Hdir. cbn [negb].
    by rewrite (bind_err _ _ _ _ _ Hopen).
  - destruct Hsame' as (? & ? & ? & ?). repeat split; congruence.
Qed.

Lemma prepare_ds_directory_without_dataset_witness :
  ∃ e w',
    prepare_ds example_backend 1
      (with_ds_name (example_request "data.n5" "float32") "volumes")
      provisioned_world = (Err e, w') ∧
    same_storage provisioned_world w'.
Proof.
  apply (prepare_ds_directory_without_dataset example_backend 0
           (with_ds_name (example_request "data.n5" "float32") "volumes")
           provisioned_world (Some [8; 16]) provisioned_world example_geometry).
  - reflexivity.
  - reflexivity.
  - vm_compute. set_solver.
  - left. reflexivity.
  - reflexivity.
  - reflexivity.
Defined.

(** A dataset name made of slashes alone names the container itself: on an
    empty world the container is made, found to be a directory, and the
    call raises without a dataset being created. *)
Lemma prepare_ds_container_as_dataset :
  let r := prepare_ds example_backend 1
             (with_ds_name (example_request "data.zarr" "float32") "/")
             empty_world in
  (∃ e, r.1 = Err e) ∧ datasets r.2 = ∅ ∧ containers r.2 = {[ "data.zarr" ]}.
Proof. cbv zeta. split; [eexists; by vm_compute|]. split; by vm_compute. Qed.
